(** * figma-obsidian-sync-plugin: a shallow embedding of [src/main.ts]
      and [src/coordinate-based-frame-detection.js]

    The development follows the source class by class:

    - [TokenManager]: the XOR/base64 token obfuscation;
    - [FrameInfoFetcher]: the frame-resolution cache, the structure fetch
      and the two tree searches of [main.ts];
    - [CoordinateBasedFrameDetector]: the stand-alone JavaScript variant;
    - [Plugin]: the rendering loop of [saveCommentsToSingleFile].

    The embedding comes first; the definitions that the statements need and
    the sample inputs follow; the properties, with their proofs, come last.

    Conventions of the embedding.

    - JavaScript numbers that carry geometry are exact rationals ([Q]);
      [undefined] operands and the results [NaN] and [+Infinity] are written
      out ([option Q], [Score]).  Rounding, overflow and the sign of zero of
      IEEE doubles are outside the model.
    - Strings that are only compared and concatenated (identifiers, names,
      document text) are [string]; the token strings of [TokenManager],
      whose UTF-16 code units are computed with, are lists of code units.
    - A JavaScript object used as a dictionary is a [gmap string _]; the keys
      are assumed not to be names of [Object.prototype] members.
    - A thrown exception is the [Throw] constructor of [outcome]; state that
      the source mutates ([this.cache], the network) is passed explicitly. *)

From Stdlib Require Import ZArith NArith QArith List String Ascii Bool Lia Lqa.
From Stdlib Require Import Sorting.Sorted Sorting.Permutation.
From stdpp Require Import gmap strings pretty.
Import ListNotations.
Open Scope string_scope.
Open Scope list_scope.

(** ** Results of calls that may throw *)

Inductive outcome (A : Type) : Type :=
| Ret (a : A)
| Throw (e : string).
Arguments Ret {A} a.
Arguments Throw {A} e.

(** ** JavaScript strings as lists of UTF-16 code units *)

Module JS.

Definition jsstring : Type := list N.

Definition is_jsstring (s : jsstring) : Prop :=
  Forall (fun c => (c < 65536)%N) s.

(** A string literal of ASCII characters, as code units. *)
Definition of_string (s : string) : jsstring :=
  map N_of_ascii (list_ascii_of_string s).

(** [s.charCodeAt(i)] for [i] in range. *)
Definition charCodeAt (s : jsstring) (i : nat) : N := nth i s 0%N.

(** [String.fromCharCode(n)]: the code unit [n mod 2^16]. *)
Definition fromCharCode (n : N) : N := (n mod 65536)%N.

(** *** [btoa] and [atob]

    The two platform functions, after the WHATWG definitions: [btoa]
    throws on a code unit above 255 and encodes the bytes otherwise;
    [atob] is the forgiving base64 decoder (ASCII white space is dropped,
    up to two trailing [=] are removed from an input of length 0 mod 4, a
    remaining length of 1 mod 4 or a character outside the alphabet is an
    error, and a final group of two or three characters yields one or two
    bytes). *)

Definition base64_alphabet : jsstring :=
  of_string "ABCDEFGHIJKLMNOPQRSTUVWXYZabcdefghijklmnopqrstuvwxyz0123456789+/".

Definition pad_char : N := 61%N.

Definition alphabet_char (i : N) : N := nth (N.to_nat i) base64_alphabet 0%N.

Fixpoint index_of (c : N) (l : list N) (i : N) : option N :=
  match l with
  | [] => None
  | d :: rest => if (c =? d)%N then Some i else index_of c rest (N.succ i)
  end.

Definition alphabet_index (c : N) : option N := index_of c base64_alphabet 0%N.

Fixpoint encode_bytes (bs : list N) : jsstring :=
  match bs with
  | [] => []
  | [a] =>
      [alphabet_char (N.shiftr a 2);
       alphabet_char (N.shiftl (N.land a 3) 4);
       pad_char; pad_char]
  | [a; b] =>
      [alphabet_char (N.shiftr a 2);
       alphabet_char (N.lor (N.shiftl (N.land a 3) 4) (N.shiftr b 4));
       alphabet_char (N.shiftl (N.land b 15) 2);
       pad_char]
  | a :: b :: c :: rest =>
      alphabet_char (N.shiftr a 2)
      :: alphabet_char (N.lor (N.shiftl (N.land a 3) 4) (N.shiftr b 4))
      :: alphabet_char (N.lor (N.shiftl (N.land b 15) 2) (N.shiftr c 6))
      :: alphabet_char (N.land c 63)
      :: encode_bytes rest
  end.

Definition btoa (s : jsstring) : outcome jsstring :=
  if forallb (fun c => (c <? 256)%N) s
  then Ret (encode_bytes s)
  else Throw "InvalidCharacterError".

Definition is_ascii_whitespace (c : N) : bool :=
  ((c =? 9) || (c =? 10) || (c =? 12) || (c =? 13) || (c =? 32))%N.

Definition strip_padding (d : jsstring) : jsstring :=
  if (List.length d mod 4 =? 0)%nat then
    match rev d with
    | p1 :: p2 :: r =>
        if (p1 =? pad_char)%N then
          if (p2 =? pad_char)%N then rev r else rev (p2 :: r)
        else d
    | [p1] => if (p1 =? pad_char)%N then [] else d
    | [] => d
    end
  else d.

Fixpoint sextets_of (d : jsstring) : option (list N) :=
  match d with
  | [] => Some []
  | c :: rest =>
      match alphabet_index c, sextets_of rest with
      | Some i, Some l => Some (i :: l)
      | _, _ => None
      end
  end.

Fixpoint decode_sextets (l : list N) : list N :=
  match l with
  | s0 :: s1 :: s2 :: s3 :: rest =>
      N.lor (N.shiftl s0 2) (N.shiftr s1 4)
      :: N.lor (N.shiftl (N.land s1 15) 4) (N.shiftr s2 2)
      :: N.lor (N.shiftl (N.land s2 3) 6) s3
      :: decode_sextets rest
  | [s0; s1; s2] =>
      [N.lor (N.shiftl s0 2) (N.shiftr s1 4);
       N.lor (N.shiftl (N.land s1 15) 4) (N.shiftr s2 2)]
  | [s0; s1] => [N.lor (N.shiftl s0 2) (N.shiftr s1 4)]
  | _ => []
  end.

Definition atob (s : jsstring) : outcome jsstring :=
  let d := strip_padding (List.filter (fun c => negb (is_ascii_whitespace c)) s) in
  if (List.length d mod 4 =? 1)%nat then Throw "InvalidCharacterError"
  else match sextets_of d with
       | Some l => Ret (decode_sextets l)
       | None => Throw "InvalidCharacterError"
       end.

End JS.

(** ** [class TokenManager] *)

Module TokenManager.
Import JS.

Definition SECRET_KEY : jsstring := of_string "figma-obsidian-sync-2025".

(** The body shared by the two [for] loops: character [i] of [text] is
    XOR-ed with character [i % SECRET_KEY.length] of the key. *)
Fixpoint xorLoop (text : jsstring) (i : nat) : jsstring :=
  match text with
  | [] => []
  | c :: rest =>
      let charCode :=
        N.lxor c (charCodeAt SECRET_KEY (i mod List.length SECRET_KEY)) in
      fromCharCode charCode :: xorLoop rest (S i)
  end.

(** [encrypt]: [btoa] is not guarded, so its exception escapes. *)
Definition encrypt (text : jsstring) : outcome jsstring :=
  match text with
  | [] => Ret []
  | _ => btoa (xorLoop text 0)
  end.

(** [decrypt]: everything after the emptiness test is inside [try], and
    the [catch] returns the empty string. *)
Definition decrypt (encrypted : jsstring) : jsstring :=
  match encrypted with
  | [] => []
  | _ =>
      match atob encrypted with
      | Ret text => xorLoop text 0
      | Throw _ => []
      end
  end.

End TokenManager.

(** ** JavaScript numbers

    A number read from the fetched JSON is [Some q], a missing field
    ([undefined]) is [None]; arithmetic on a missing operand gives [NaN],
    written [None] as well, and every comparison with [NaN] is false.  The
    quotient of the score computation may in addition be infinite. *)

Module Num.

Definition add (a b : option Q) : option Q :=
  match a, b with
  | Some p, Some q => Some (p + q)%Q
  | _, _ => None
  end.

Definition mul (a b : option Q) : option Q :=
  match a, b with
  | Some p, Some q => Some (p * q)%Q
  | _, _ => None
  end.

Definition Qlt_bool (p q : Q) : bool := negb (Qle_bool q p).

(** [a >= b] and [a <= b] *)
Definition ge (a b : option Q) : bool :=
  match a, b with
  | Some p, Some q => Qle_bool q p
  | _, _ => false
  end.

Definition le (a b : option Q) : bool :=
  match a, b with
  | Some p, Some q => Qle_bool p q
  | _, _ => false
  end.

Inductive Score : Type :=
| SNaN
| SNegInf
| SFin (q : Q)
| SPosInf.

(** [a / b] for a finite [a] *)
Definition div (a : Q) (b : option Q) : Score :=
  match b with
  | None => SNaN
  | Some q =>
      if Qeq_bool q 0 then
        if Qeq_bool a 0 then SNaN
        else if Qlt_bool 0 a then SPosInf else SNegInf
      else SFin (a / q)%Q
  end.

(** [a > b] *)
Definition gt (a b : Score) : bool :=
  match a, b with
  | SNaN, _ | _, SNaN => false
  | SPosInf, SPosInf => false
  | SPosInf, _ => true
  | _, SPosInf => false
  | SNegInf, _ => false
  | SFin _, SNegInf => true
  | SFin p, SFin q => Qlt_bool q p
  end.

End Num.

(** ** The data model of [main.ts] *)

Record BoundingBox : Type := mkBox {
  box_x : option Q;
  box_y : option Q;
  box_width : option Q;
  box_height : option Q
}.

#[local] Unset Elimination Schemes.
(** A node of the fetched structure.  [children] is the empty list both for
    a missing [children] field and for an empty array: the two traversals
    treat them alike. *)
Inductive Node : Type :=
| mkNode (id : string) (type : string) (name : string)
         (absoluteBoundingBox : option BoundingBox) (children : list Node).
#[local] Set Elimination Schemes.

Module NodeF.
Definition id (n : Node) : string := let 'mkNode i _ _ _ _ := n in i.
Definition type (n : Node) : string := let 'mkNode _ t _ _ _ := n in t.
Definition name (n : Node) : string := let 'mkNode _ _ m _ _ := n in m.
Definition absoluteBoundingBox (n : Node) : option BoundingBox :=
  let 'mkNode _ _ _ b _ := n in b.
Definition children (n : Node) : list Node := let 'mkNode _ _ _ _ c := n in c.
End NodeF.

(** Induction on a node, with the property assumed of every child. *)
Fixpoint Node_tree_ind (P : Node -> Prop)
    (step : forall id type name box children,
        Forall P children -> P (mkNode id type name box children))
    (n : Node) : P n :=
  match n with
  | mkNode id type name box children =>
      step id type name box children
        ((fix all (cs : list Node) : Forall P cs :=
            match cs with
            | [] => @List.Forall_nil Node P
            | c :: rest =>
                @List.Forall_cons Node P c rest (Node_tree_ind P step c) (all rest)
            end) children)
  end.

(** The response body of the file endpoint; [document] may be missing. *)
Record FileData : Type := mkFileData { document : option Node }.

Record FrameInfo : Type := mkFrameInfo {
  nodeId : string;
  frameName : string;
  pageName : string;
  fullPath : string
}.

(** [lastUpdated] is kept as the millisecond count that
    [new Date(lastUpdated).getTime()] recovers from the stored ISO string. *)
Record FrameCache : Type := mkFrameCache {
  fileKey : string;
  lastUpdated : Z;
  frameMap : gmap string FrameInfo;
  fileStructure : option FileData
}.

(** [entry.frameMap[key] = info] *)
Definition setFrame (key : string) (info : FrameInfo) (entry : FrameCache)
  : FrameCache :=
  mkFrameCache (fileKey entry) (lastUpdated entry)
    (<[key := info]> (frameMap entry)) (fileStructure entry).

Record Coordinates : Type := mkCoordinates {
  coord_x : option Q;
  coord_y : option Q
}.

(** ** The platform

    [requestUrl k fileKey] is what the [k]-th request of the run, asked for
    the structure of [fileKey], produces: a thrown error, or a response with
    a status and a body.  [Number_toString] is the conversion applied by a
    template literal to a number. *)

Inductive Response : Type :=
| NetworkError
| HttpResponse (status : Z) (json : FileData).

Record Platform : Type := mkPlatform {
  requestUrl : nat -> string -> Response;
  Number_toString : Q -> string;
  (** [new Date(s).getTime()] *)
  Date_getTime : string -> Z;
  (** [new Date(s).toLocaleString()] *)
  Date_toLocaleString : string -> string;
  (** [new Date().toISOString()] and [new Date().toLocaleString()] *)
  now_toISOString : string;
  now_toLocaleString : string
}.

(** ** [class FrameInfoFetcher] *)

Module FrameInfoFetcher.

(** The object state: [this.cache], and the log of the structure requests
    issued so far (one file key per call of [requestUrl]). *)
Record Fetcher : Type := mkFetcher {
  cache : gmap string FrameCache;
  requests : list string
}.

Definition DAY : Z := 24 * 60 * 60 * 1000.

Definition isFrameNode (node : Node) : bool :=
  (NodeF.type node =? "FRAME")%string
  || (NodeF.type node =? "COMPONENT")%string
  || (NodeF.type node =? "INSTANCE")%string.

Definition isPointInBounds (x y : Q) (bounds : BoundingBox) : bool :=
  Num.ge (Some x) (box_x bounds)
  && Num.le (Some x) (Num.add (box_x bounds) (box_width bounds))
  && Num.ge (Some y) (box_y bounds)
  && Num.le (Some y) (Num.add (box_y bounds) (box_height bounds)).

(** [traverseNodes]: the callback reads and writes the variables it closes
    over, here the state [S]. *)
Fixpoint traverseNodes {S : Type} (node : Node)
    (callback : Node -> list Node -> S -> S) (path : list Node) (s : S) : S :=
  let currentPath := path ++ [node] in
  let s1 := callback node currentPath s in
  match node with
  | mkNode _ _ _ _ children =>
      (fix each (cs : list Node) (s : S) : S :=
         match cs with
         | [] => s
         | child :: rest => each rest (traverseNodes child callback currentPath s)
         end) children s1
  end.

Definition getCachedFrameInfo (now : Z) (fileKey nodeId : string) (st : Fetcher)
  : option FrameInfo * Fetcher :=
  match cache st !! fileKey with
  | None => (None, st)
  | Some c =>
      let cacheAge := (now - lastUpdated c)%Z in
      if (cacheAge >? DAY)%Z
      then (None, mkFetcher (delete fileKey (cache st)) (requests st))
      else (frameMap c !! nodeId, st)
  end.

(** [fetchFileStructure]: the whole body is inside [try]; both the
    [catch] and a status other than 200 return [null]. *)
Definition fetchFileStructure (P : Platform) (now : Z) (fileKey : string)
    (st : Fetcher) : option FileData * Fetcher :=
  let requests' := requests st ++ [fileKey] in
  match requestUrl P (List.length (requests st)) fileKey with
  | NetworkError => (None, mkFetcher (cache st) requests')
  | HttpResponse status data =>
      if negb (status =? 200)%Z then (None, mkFetcher (cache st) requests')
      else
        let cache' :=
          match cache st !! fileKey with
          | None => <[fileKey := mkFrameCache fileKey now ∅ (Some data)]> (cache st)
          | Some _ => cache st
          end in
        (Some data, mkFetcher cache' requests')
  end.

(** The variables [findFrameAtCoordinates] declares and its callback
    assigns. *)
Record BestMatch : Type := mkBestMatch {
  bestMatchNode : option Node;
  bestMatchPath : list Node;
  bestScore : Num.Score
}.

(** The callback passed to [traverseNodes]; [numer] is the numerator of
    the score, [1000000] in [main.ts]. *)
Definition visitFrame (numer : Q) (x y : Q) (node : Node) (path : list Node)
    (s : BestMatch) : BestMatch :=
  if isFrameNode node then
    match NodeF.absoluteBoundingBox node with
    | Some bounds =>
        if isPointInBounds x y bounds then
          let area := Num.mul (box_width bounds) (box_height bounds) in
          let score := Num.div numer area in
          if Num.gt score (bestScore s)
          then mkBestMatch (Some node) path score
          else s
        else s
    | None => s
    end
  else s.

Definition initialBest : BestMatch := mkBestMatch None [] (Num.SFin (-1)).

Fixpoint findIndex {A : Type} (f : A -> bool) (l : list A) : option nat :=
  match l with
  | [] => None
  | a :: rest => if f a then Some 0%nat else option_map S (findIndex f rest)
  end.

Definition isCanvas (n : Node) : bool := (NodeF.type n =? "CANVAS")%string.

(** [a || b] on strings: the empty string is falsy. *)
Definition orElse (a b : string) : string :=
  if (a =? "")%string then b else a.

Definition buildFrameInfoFromPath (node : Node) (path : list Node) : FrameInfo :=
  let page := List.find isCanvas path in
  let pageName :=
    match page with Some pg => NodeF.name pg | None => "Unknown Page" end in
  let pageIndex := findIndex isCanvas path in
  let framePathNodes :=
    match pageIndex with
    | Some i => drop (S i) path
    | None => path
    end in
  let fullPath := String.concat " > " (map NodeF.name framePathNodes) in
  mkFrameInfo (NodeF.id node) (NodeF.name node) pageName
    (orElse fullPath (NodeF.name node)).

(** [fileData.document] is handed to [traverseNodes] as it is; when it is
    missing, the first callback reads [node.type] of [undefined] and
    throws. *)
Definition findBestMatch (numer x y : Q) (root : Node) : BestMatch :=
  traverseNodes root (visitFrame numer x y) [] initialBest.

Definition findFrameAtCoordinates (x y : Q) (fileData : FileData)
  : outcome (option FrameInfo) :=
  match document fileData with
  | None => Throw "TypeError"
  | Some root =>
      let best := findBestMatch 1000000 x y root in
      match bestMatchNode best with
      | Some node => Ret (Some (buildFrameInfoFromPath node (bestMatchPath best)))
      | None => Ret None
      end
  end.

(** The inner function [findNode] of [findFrameInfo].  It assigns
    [frameFound = true] exactly when it returns [true], so its result
    stands for both; [currentPath] is built but never read. *)
Fixpoint findNode (nodeId : string) (node : Node) (currentPath : list Node)
  : bool :=
  if (NodeF.id node =? nodeId)%string then true
  else
    match node with
    | mkNode _ _ _ _ children =>
        (fix each (cs : list Node) : bool :=
           match cs with
           | [] => false
           | child :: rest =>
               if findNode nodeId child (currentPath ++ [node]) then true
               else each rest
           end) children
    end.

(** The variables of [findFrameInfo] that the loop over the pages
    assigns. *)
Record PageSearch : Type := mkSearch {
  path : list Node;
  frameFound : bool;
  searchPageName : string
}.

Fixpoint searchPages (nodeId : string) (pages : list Node) (s : PageSearch)
  : PageSearch :=
  match pages with
  | [] => s
  | page :: rest =>
      if isCanvas page then
        if findNode nodeId page [page]
        then mkSearch (page :: path s) true (NodeF.name page)
        else searchPages nodeId rest (mkSearch (path s) (frameFound s) (NodeF.name page))
      else searchPages nodeId rest s
  end.

Definition findFrameInfo (nodeId : string) (fileData : FileData)
  : option FrameInfo :=
  let s0 := mkSearch [] false "" in
  let s :=
    match document fileData with
    | Some doc => searchPages nodeId (NodeF.children doc) s0
    | None => s0
    end in
  if negb (frameFound s) then None
  else
    let frames := List.filter isFrameNode (path s) in
    let frameName :=
      match frames with
      | [] => "Root"
      | f :: _ => NodeF.name (List.last frames f)
      end in
    let fullPath := String.concat " > " (map NodeF.name (drop 1 (path s))) in
    Some (mkFrameInfo nodeId frameName (searchPageName s)
            (orElse fullPath frameName)).

Definition cacheFrameInfo (now : Z) (fileKey nodeId : string)
    (frameInfo : FrameInfo) (st : Fetcher) : Fetcher :=
  let entry :=
    match cache st !! fileKey with
    | Some c => c
    | None => mkFrameCache fileKey now ∅ None
    end in
  mkFetcher (<[fileKey := setFrame nodeId frameInfo entry]> (cache st))
    (requests st).

Definition getFrameInfoByNodeId (P : Platform) (now : Z)
    (fileKey nodeId : string) (st : Fetcher)
  : outcome (option FrameInfo) * Fetcher :=
  let '(cachedInfo, st1) := getCachedFrameInfo now fileKey nodeId st in
  match cachedInfo with
  | Some info => (Ret (Some info), st1)
  | None =>
      let '(fileStructure, st2) := fetchFileStructure P now fileKey st1 in
      match fileStructure with
      | None => (Ret None, st2)
      | Some data =>
          match findFrameInfo nodeId data with
          | Some frameInfo =>
              (Ret (Some frameInfo), cacheFrameInfo now fileKey nodeId frameInfo st2)
          | None => (Ret None, st2)
          end
      end
  end.

Definition coordKey (P : Platform) (x y : Q) : string :=
  "coord_" ++ Number_toString P x ++ "_" ++ Number_toString P y.

Definition getFrameInfoByCoordinates (P : Platform) (now : Z)
    (fileKey : string) (x y : Q) (st : Fetcher)
  : outcome (option FrameInfo) * Fetcher :=
  let key := coordKey P x y in
  let '(cachedInfo, st1) := getCachedFrameInfo now fileKey key st in
  match cachedInfo with
  | Some info => (Ret (Some info), st1)
  | None =>
      let '(fileStructure, st2) := fetchFileStructure P now fileKey st1 in
      match fileStructure with
      | None => (Ret None, st2)
      | Some data =>
          match findFrameAtCoordinates x y data with
          | Throw e => (Throw e, st2)
          | Ret (Some frameInfo) =>
              (Ret (Some frameInfo), cacheFrameInfo now fileKey key frameInfo st2)
          | Ret None => (Ret None, st2)
          end
      end
  end.

(** [nodeId && nodeId !== '0:1'] *)
Definition isRealNodeId (nodeId : string) : bool :=
  negb (nodeId =? "")%string && negb (nodeId =? "0:1")%string.

Definition getFrameInfo (P : Platform) (now : Z) (fileKey nodeId : string)
    (coordinates : option Coordinates) (st : Fetcher)
  : outcome (option FrameInfo) * Fetcher :=
  if isRealNodeId nodeId then getFrameInfoByNodeId P now fileKey nodeId st
  else
    match coordinates with
    | Some c =>
        match coord_x c, coord_y c with
        | Some x, Some y => getFrameInfoByCoordinates P now fileKey x y st
        | _, _ => (Ret None, st)
        end
    | None => (Ret None, st)
    end.

Definition clearCache (st : Fetcher) : Fetcher := mkFetcher ∅ (requests st).

End FrameInfoFetcher.

(** ** [class CoordinateBasedFrameDetector]
    ([coordinate-based-frame-detection.js])

    [isPointInBounds], [isFrameNode] and [traverseNodes] are repeated there
    word for word; the definitions of [FrameInfoFetcher] stand for both. *)

Module CoordinateBasedFrameDetector.
Import FrameInfoFetcher.

(** The object [buildFrameInfo] returns: a [FrameInfo] with the box of the
    node in addition. *)
Record DetectedFrame : Type := mkDetectedFrame {
  info : FrameInfo;
  coordinates : option BoundingBox
}.

(** [response.ok] *)
Definition ok (status : Z) : bool := ((200 <=? status) && (status <=? 299))%Z.

Definition fetchFileStructure (P : Platform) (now : Z) (fileKey : string)
    (st : Fetcher) : option FileData * Fetcher :=
  let request :=
    let requests' := requests st ++ [fileKey] in
    match requestUrl P (List.length (requests st)) fileKey with
    | NetworkError => (None, mkFetcher (cache st) requests')
    | HttpResponse status data =>
        if negb (ok status) then (None, mkFetcher (cache st) requests')
        else
          (Some data,
           mkFetcher
             (<[fileKey := mkFrameCache fileKey now ∅ (Some data)]> (cache st))
             requests')
    end in
  match cache st !! fileKey with
  | Some cached =>
      let cacheAge := (now - lastUpdated cached)%Z in
      if (cacheAge <? DAY)%Z then (fileStructure cached, st) else request
  | None => request
  end.

Definition buildFrameInfo (node : Node) (path : list Node) : DetectedFrame :=
  mkDetectedFrame (buildFrameInfoFromPath node path)
    (NodeF.absoluteBoundingBox node).

Definition findFrameAtCoordinates (P : Platform) (now : Z) (fileKey : string)
    (x y : Q) (st : Fetcher) : outcome (option DetectedFrame) * Fetcher :=
  let '(fileStructure, st1) := fetchFileStructure P now fileKey st in
  match fileStructure with
  | None => (Ret None, st1)
  | Some data =>
      match document data with
      | None => (Throw "TypeError", st1)
      | Some root =>
          let best := findBestMatch 1 x y root in
          match bestMatchNode best with
          | Some node =>
              (Ret (Some (buildFrameInfo node (bestMatchPath best))), st1)
          | None => (Ret None, st1)
          end
      end
  end.

(** A number used as a condition: [undefined] and zero are falsy. *)
Definition truthyNumber (n : option Q) : bool :=
  match n with
  | Some q => negb (Qeq_bool q 0)
  | None => false
  end.

(** The variables [getFrameInfoByNodeId] declares and its callback assigns. *)
Record Found : Type := mkFound {
  foundNode : option Node;
  foundPath : list Node
}.

(** The callback of [getFrameInfoByNodeId]: every node with the identifier
    overwrites the one noted before. *)
Definition noteMatch (nodeId : string) (node : Node) (path : list Node)
    (s : Found) : Found :=
  if (NodeF.id node =? nodeId)%string then mkFound (Some node) path else s.

Definition getFrameInfoByNodeId (P : Platform) (now : Z) (fileKey nodeId : string)
    (st : Fetcher) : outcome (option DetectedFrame) * Fetcher :=
  let '(fileStructure, st1) := fetchFileStructure P now fileKey st in
  match fileStructure with
  | None => (Ret None, st1)
  | Some data =>
      match document data with
      | None => (Throw "TypeError", st1)
      | Some root =>
          let found := traverseNodes root (noteMatch nodeId) [] (mkFound None []) in
          match foundNode found with
          | Some node => (Ret (Some (buildFrameInfo node (foundPath found))), st1)
          | None => (Ret None, st1)
          end
      end
  end.

(** The entry point.  [coordinates.x && coordinates.y] tests the numbers
    themselves, so a coordinate of zero counts as missing. *)
Definition getFrameInfoByCoordinates (P : Platform) (now : Z)
    (fileKey nodeId : string) (coordinates : option Coordinates) (st : Fetcher)
  : outcome (option DetectedFrame) * Fetcher :=
  if isRealNodeId nodeId then getFrameInfoByNodeId P now fileKey nodeId st
  else
    match coordinates with
    | Some c =>
        if truthyNumber (coord_x c) && truthyNumber (coord_y c) then
          match coord_x c, coord_y c with
          | Some x, Some y => findFrameAtCoordinates P now fileKey x y st
          | _, _ => (Ret None, st)
          end
        else (Ret None, st)
    | None => (Ret None, st)
    end.

End CoordinateBasedFrameDetector.

(** ** [class FigmaObsidianSyncPlugin]: rendering the comments of a file *)

Record ClientMeta : Type := mkClientMeta {
  node_id : option string;
  node_offset : option Coordinates
}.

Record FigmaComment : Type := mkFigmaComment {
  comment_id : string;
  parent_id : option string;
  user_handle : string;
  created_at : string;
  resolved_at : option string;
  message : string;
  client_meta : option ClientMeta
}.

Record FigmaFile : Type := mkFigmaFile {
  file_id : string;
  file_name : string;
  file_key : string;
  enabled : bool
}.

Module Plugin.
Import FrameInfoFetcher.
#[local] Open Scope string_scope.

Definition nl : string := String (ascii_of_nat 10) EmptyString.

(** Truthiness of a value of type [string | null]. *)
Definition truthy (s : option string) : bool :=
  match s with
  | Some t => negb (t =? "")%string
  | None => false
  end.

(** [s.replace(/\n/g, '\n    ')] *)
Fixpoint indentContinuation (s : string) : string :=
  match s with
  | EmptyString => EmptyString
  | String c rest =>
      if Ascii.eqb c (ascii_of_nat 10)
      then nl ++ "    " ++ indentContinuation rest
      else String c (indentContinuation rest)
  end.

(** [Array.prototype.sort] with a comparator.  The sort is stable, so for
    a comparator that orders consistently the result is determined; it is
    computed here by insertion from the right. *)
Fixpoint insertSorted {A : Type} (cmp : A -> A -> Z) (a : A) (l : list A)
  : list A :=
  match l with
  | [] => [a]
  | b :: rest =>
      if (cmp a b <=? 0)%Z then a :: b :: rest
      else b :: insertSorted cmp a rest
  end.

Definition Array_sort {A : Type} (cmp : A -> A -> Z) (l : list A) : list A :=
  List.fold_right (insertSorted cmp) [] l.

Definition newestFirst (P : Platform) (a b : FigmaComment) : Z :=
  (Date_getTime P (created_at b) - Date_getTime P (created_at a))%Z.

Definition countResolved (comments : list FigmaComment) : nat :=
  List.length (List.filter (fun c => truthy (resolved_at c)) comments).

Definition countOpen (comments : list FigmaComment) : nat :=
  List.length (List.filter (fun c => negb (truthy (resolved_at c))) comments).

(** The front matter: the first block of the template literal. *)
Definition frontMatter (P : Platform) (file : FigmaFile)
    (total resolved open : nat) : string :=
  "---" ++ nl
  ++ "title: " ++ file_name file ++ " - Figma Comments" ++ nl
  ++ "created: " ++ now_toISOString P ++ nl
  ++ "updated: " ++ now_toISOString P ++ nl
  ++ "figma_file_key: " ++ file_key file ++ nl
  ++ "total_comments: " ++ pretty total ++ nl
  ++ "resolved_comments: " ++ pretty resolved ++ nl
  ++ "open_comments: " ++ pretty open ++ nl
  ++ "---" ++ nl.

(** The rest of the template literal, up to the first entry. *)
Definition summary (P : Platform) (file : FigmaFile)
    (total resolved open : nat) : string :=
  nl
  ++ "# " ++ file_name file ++ " - Figma Comments" ++ nl
  ++ nl
  ++ "## Summary" ++ nl
  ++ "- **Total Comments**: " ++ pretty total ++ nl
  ++ "- **Open Comments**: " ++ pretty open ++ nl
  ++ "- **Resolved Comments**: " ++ pretty resolved ++ nl
  ++ "- **Last Sync**: " ++ now_toLocaleString P ++ nl
  ++ "- **File Link**: [Open in Figma](https://www.figma.com/file/"
  ++ file_key file ++ ")" ++ nl
  ++ nl
  ++ "## Comments" ++ nl
  ++ nl.

Definition initialContent (P : Platform) (file : FigmaFile)
    (comments : list FigmaComment) : string :=
  frontMatter P file (List.length comments) (countResolved comments)
    (countOpen comments)
  ++ summary P file (List.length comments) (countResolved comments)
       (countOpen comments).

(** [comment.resolved_at !== null] *)
Definition isResolved (comment : FigmaComment) : bool :=
  match resolved_at comment with Some _ => true | None => false end.

Definition checkbox (comment : FigmaComment) : string :=
  if isResolved comment then "- [x]" else "- [ ]".

Definition entryHead (P : Platform) (comment : FigmaComment) : string :=
  checkbox comment ++ " " ++ Date_toLocaleString P (created_at comment) ++ nl
  ++ "  - " ++ indentContinuation (message comment) ++ nl
  ++ "  - Author: " ++ user_handle comment.

Definition frameLines (frameInfo : option FrameInfo) : string :=
  match frameInfo with
  | Some f =>
      nl ++ "  - Frame: " ++ fullPath f ++ nl ++ "  - Page: " ++ pageName f
  | None => ""
  end.

Definition entryTail (P : Platform) (comment : FigmaComment) : string :=
  let resolvedInfo :=
    match resolved_at comment with
    | Some r => "Resolved: " ++ Date_toLocaleString P r
    | None => "Open"
    end in
  nl ++ "  - Status: " ++ resolvedInfo ++ nl ++ nl.

(** The frame lookup of one entry: made when [settings.fetchFrameInfo] is
    set, a fetcher exists and the comment has a non-empty [node_id]. *)
Definition lookupFrame (P : Platform) (now : Z) (fetchFrameInfo : bool)
    (file : FigmaFile) (comment : FigmaComment) (fetcher : option Fetcher)
  : outcome (option FrameInfo) * option Fetcher :=
  match fetchFrameInfo, fetcher, client_meta comment with
  | true, Some st, Some meta =>
      if truthy (node_id meta) then
        let '(r, st') :=
          getFrameInfo P now (file_key file) (default "" (node_id meta))
            (node_offset meta) st in
        (r, Some st')
      else (Ret None, fetcher)
  | _, _, _ => (Ret None, fetcher)
  end.

(** The [for] loop over the sorted comments; an exception of the frame
    lookup leaves the loop and the function. *)
Fixpoint renderEntries (P : Platform) (now : Z) (fetchFrameInfo : bool)
    (file : FigmaFile) (sortedComments : list FigmaComment)
    (content : string) (fetcher : option Fetcher)
  : outcome string * option Fetcher :=
  match sortedComments with
  | [] => (Ret content, fetcher)
  | comment :: rest =>
      let content1 := content ++ entryHead P comment in
      let '(r, fetcher') := lookupFrame P now fetchFrameInfo file comment fetcher in
      match r with
      | Throw e => (Throw e, fetcher')
      | Ret frameInfo =>
          renderEntries P now fetchFrameInfo file rest
            (content1 ++ frameLines frameInfo ++ entryTail P comment) fetcher'
      end
  end.

(** [saveCommentsToSingleFile], up to the text handed to the vault. *)
Definition saveCommentsToSingleFile (P : Platform) (now : Z)
    (fetchFrameInfo : bool) (fetcher : option Fetcher) (file : FigmaFile)
    (comments : list FigmaComment) : outcome string * option Fetcher :=
  let content := initialContent P file comments in
  let sortedComments := Array_sort (newestFirst P) comments in
  renderEntries P now fetchFrameInfo file sortedComments content fetcher.

End Plugin.

(** ** [FigmaObsidianSyncPlugin]: loading and saving the settings

    [loadSettings] and the part of [saveSettings] that builds the object
    handed to [saveData].  The bookkeeping of [frameInfoFetcher] that opens
    [saveSettings] does not bear on that object and is not modelled. *)

Module Settings.

Record FigmaObsidianSyncSettings : Type := mkSettings {
  figmaToken : JS.jsstring;
  syncFolder : string;
  syncInterval : Z;
  figmaFiles : list FigmaFile;
  encryptedToken : option JS.jsstring;
  tokenVisible : bool;
  fetchFrameInfo : bool;
  deleteToTrash : bool
}.

Record FigmaObsidianSyncRuntimeData : Type := mkRuntimeData {
  lastSync : string;
  frameInfoCache : gmap string FrameCache
}.

(** The stored object, as [loadData] returns it and [saveData] receives it:
    every key may be missing. *)
Record SavedData : Type := mkSavedData {
  saved_figmaToken : option JS.jsstring;
  saved_syncFolder : option string;
  saved_syncInterval : option Z;
  saved_figmaFiles : option (list FigmaFile);
  saved_encryptedToken : option JS.jsstring;
  saved_tokenVisible : option bool;
  saved_fetchFrameInfo : option bool;
  saved_deleteToTrash : option bool;
  saved_lastSync : option string;
  saved_frameInfoCache : option (gmap string FrameCache)
}.

Definition DEFAULT_SETTINGS : FigmaObsidianSyncSettings :=
  mkSettings [] "Figma Comments" 300000 [] None false false true.

Definition DEFAULT_RUNTIME_DATA : FigmaObsidianSyncRuntimeData :=
  mkRuntimeData "" ∅.

(** Truthiness of a token string that may be missing. *)
Definition nonEmpty (s : option JS.jsstring) : bool :=
  match s with
  | Some (_ :: _) => true
  | _ => false
  end.

(** [Object.assign(this.settings, persistentSettings)]: the keys present in
    the stored object replace the defaults. *)
Definition assignSaved (s : FigmaObsidianSyncSettings) (d : SavedData)
  : FigmaObsidianSyncSettings :=
  mkSettings
    (default (figmaToken s) (saved_figmaToken d))
    (default (syncFolder s) (saved_syncFolder d))
    (default (syncInterval s) (saved_syncInterval d))
    (default (figmaFiles s) (saved_figmaFiles d))
    (match saved_encryptedToken d with
     | Some e => Some e
     | None => encryptedToken s
     end)
    (default (tokenVisible s) (saved_tokenVisible d))
    (default (fetchFrameInfo s) (saved_fetchFrameInfo d))
    (default (deleteToTrash s) (saved_deleteToTrash d)).

Definition loadSettings (loadedData : option SavedData)
  : FigmaObsidianSyncSettings * FigmaObsidianSyncRuntimeData :=
  let '(settings, runtimeData) :=
    match loadedData with
    | Some d =>
        (assignSaved DEFAULT_SETTINGS d,
         mkRuntimeData
           (match saved_lastSync d with
            | Some l => if (l =? "")%string then lastSync DEFAULT_RUNTIME_DATA else l
            | None => lastSync DEFAULT_RUNTIME_DATA
            end)
           (default (frameInfoCache DEFAULT_RUNTIME_DATA) (saved_frameInfoCache d)))
    | None => (DEFAULT_SETTINGS, DEFAULT_RUNTIME_DATA)
    end in
  let settings' :=
    if nonEmpty (encryptedToken settings) && negb (nonEmpty (Some (figmaToken settings)))
    then
      mkSettings
        (TokenManager.decrypt (default [] (encryptedToken settings)))
        (syncFolder settings) (syncInterval settings) (figmaFiles settings)
        (encryptedToken settings) (tokenVisible settings) (fetchFrameInfo settings)
        (deleteToTrash settings)
    else settings in
  (settings', runtimeData).

(** [settingsToSave], the object [saveSettings] hands to [saveData]; the
    exception of [TokenManager.encrypt] is not caught. *)
Definition settingsToSave (s : FigmaObsidianSyncSettings) : outcome SavedData :=
  let copy (token enc : option JS.jsstring) :=
    mkSavedData token (Some (syncFolder s)) (Some (syncInterval s))
      (Some (figmaFiles s)) enc (Some (tokenVisible s)) (Some (fetchFrameInfo s))
      (Some (deleteToTrash s)) None None in
  if nonEmpty (Some (figmaToken s)) then
    match TokenManager.encrypt (figmaToken s) with
    | Ret e => Ret (copy None (Some e))
    | Throw err => Throw err
    end
  else Ret (copy (Some (figmaToken s)) (encryptedToken s)).

(** [this.settings.figmaToken = value], the assignment made by the token
    field of the security dialogue. *)
Definition setToken (value : JS.jsstring) (s : FigmaObsidianSyncSettings)
  : FigmaObsidianSyncSettings :=
  mkSettings value (syncFolder s) (syncInterval s) (figmaFiles s)
    (encryptedToken s) (tokenVisible s) (fetchFrameInfo s) (deleteToTrash s).

End Settings.

(** * Definitions used to state the properties *)

(** ** Base64: the sextets behind [JS.encode_bytes], and the checks that are
    decided by enumeration *)

Module Base64.
Import JS.
#[local] Open Scope N_scope.

(** The numbers below [n]. *)
Definition range (n : nat) : list N := map N.of_nat (seq 0 n).

(** The sextets of the encoding, without the alphabet and the padding. *)
Fixpoint sextets (bs : list N) : list N :=
  match bs with
  | [] => []
  | [a] => [N.shiftr a 2; N.shiftl (N.land a 3) 4]
  | [a; b] =>
      [N.shiftr a 2;
       N.lor (N.shiftl (N.land a 3) 4) (N.shiftr b 4);
       N.shiftl (N.land b 15) 2]
  | a :: b :: c :: rest =>
      N.shiftr a 2
      :: N.lor (N.shiftl (N.land a 3) 4) (N.shiftr b 4)
      :: N.lor (N.shiftl (N.land b 15) 2) (N.shiftr c 6)
      :: N.land c 63
      :: sextets rest
  end.

(** The [=] characters that complete the last group. *)
Definition padding (bs : list N) : list N :=
  match (List.length bs mod 3)%nat with
  | 1%nat => [pad_char; pad_char]
  | 2%nat => [pad_char]
  | _ => []
  end.

(** The character of sextet [i] decodes to [i] and is neither [=] nor white
    space. *)
Definition alphabet_ok (i : N) : bool :=
  match alphabet_index (alphabet_char i) with
  | Some j => (j =? i)
  | None => false
  end
  && negb (alphabet_char i =? pad_char)
  && negb (is_ascii_whitespace (alphabet_char i)).

(** The first two sextets of a group, [v] being the high half of the second
    byte, are sextets and give the first byte back; the pieces cut from a
    byte have the expected sizes. *)
Definition head_ok (a v : N) : bool :=
  let s0 := N.shiftr a 2 in
  let s1 := N.lor (N.shiftl (N.land a 3) 4) v in
  (s0 <? 64) && (s1 <? 64) && (N.lor (N.shiftl s0 2) (N.shiftr s1 4) =? a)
  && (N.land a 3 <? 4) && (N.shiftr a 4 <? 16) && (N.shiftr a 6 <? 4)
  && (N.land a 63 <? 64) && (N.land a 15 <? 16).

(** The second and third sextets give the second byte back; [t] is the
    low quarter of the first byte and [u] the high quarter of the third. *)
Definition middle_ok (t b u : N) : bool :=
  let s1 := N.lor (N.shiftl t 4) (N.shiftr b 4) in
  let s2 := N.lor (N.shiftl (N.land b 15) 2) u in
  (s2 <? 64)
  && (N.lor (N.shiftl (N.land s1 15) 4) (N.shiftr s2 2) =? b).

(** The third and fourth sextets give the third byte back; [u] is the low
    half of the second byte. *)
Definition tail_ok (u c : N) : bool :=
  let s3 := N.land c 63 in
  (N.lor (N.shiftl (N.land (N.lor (N.shiftl u 2) (N.shiftr c 6)) 3) 6) s3 =? c).

End Base64.

(** [decrypt] gives the token back from what [encrypt] returns. *)
Definition roundtrips (token : JS.jsstring) : Prop :=
  exists e, TokenManager.encrypt token = Ret e /\ TokenManager.decrypt e = token.

(** ** The structure tree and the coordinate search *)

Module Spec.
Import FrameInfoFetcher.

(** The nodes of a tree in pre-order, each with its path from the root
    (the node itself included). *)
Fixpoint preorder (node : Node) (path : list Node) : list (Node * list Node) :=
  let currentPath := path ++ [node] in
  (node, currentPath)
  :: match node with
     | mkNode _ _ _ _ children =>
         (fix each (cs : list Node) : list (Node * list Node) :=
            match cs with
            | [] => []
            | child :: rest => preorder child currentPath ++ each rest
            end) children
     end.

(** The path from [node] down to the first node in pre-order whose
    identifier is [nodeId]. *)
Fixpoint pathTo (nodeId : string) (node : Node) : option (list Node) :=
  if (NodeF.id node =? nodeId)%string then Some [node]
  else
    match node with
    | mkNode _ _ _ _ children =>
        (fix each (cs : list Node) : option (list Node) :=
           match cs with
           | [] => None
           | child :: rest =>
               match pathTo nodeId child with
               | Some p => Some (node :: p)
               | None => each rest
               end
           end) children
    end.

(** The name of the nearest container among the nodes of a path, the last
    of which is the matched node; ["Root"] when there is none. *)
Definition nearestContainerName (path : list Node) : string :=
  match List.filter isFrameNode (rev path) with
  | container :: _ => NodeF.name container
  | [] => "Root"
  end.







End Spec.

(** ** The cache and the resolver *)

Module CacheSpec.
Import FrameInfoFetcher.

(** The fetcher without the entry of a file. *)
Definition evict (fileKey : string) (st : Fetcher) : Fetcher :=
  mkFetcher (delete fileKey (cache st)) (requests st).

(** The entry a structure fetch creates. *)
Definition freshEntry (fileKey : string) (now : Z) (data : FileData) : FrameCache :=
  mkFrameCache fileKey now ∅ (Some data).

(** A response on which [fetchFileStructure] gives up. *)
Definition fetchFails (r : Response) : Prop :=
  match r with
  | NetworkError => True
  | HttpResponse status _ => status <> 200%Z
  end.

(** The shape shared by [getFrameInfoByNodeId] and
    [getFrameInfoByCoordinates]: cache lookup, structure fetch, search,
    cache store. *)
Definition resolveBy (find : FileData -> outcome (option FrameInfo))
    (P : Platform) (now : Z) (fk key : string) (st : Fetcher)
  : outcome (option FrameInfo) * Fetcher :=
  match getCachedFrameInfo now fk key st with
  | (Some info, st1) => (Ret (Some info), st1)
  | (None, st1) =>
      match fetchFileStructure P now fk st1 with
      | (None, st2) => (Ret None, st2)
      | (Some data, st2) =>
          match find data with
          | Throw e => (Throw e, st2)
          | Ret (Some frameInfo) =>
              (Ret (Some frameInfo), cacheFrameInfo now fk key frameInfo st2)
          | Ret None => (Ret None, st2)
          end
      end
  end.

(** The key under which [getFrameInfo] looks a resolution up and stores it:
    the node identifier, or the key made of the coordinates. *)
Definition resolutionKey (P : Platform) (nodeId : string)
    (coordinates : option Coordinates) : string :=
  if isRealNodeId nodeId then nodeId
  else
    match coordinates with
    | Some (mkCoordinates (Some x) (Some y)) => coordKey P x y
    | _ => ""
    end.

(** A call of [getFrameInfo] that has an anchor to resolve. *)
Definition resolvable (nodeId : string) (coordinates : option Coordinates) : Prop :=
  isRealNodeId nodeId = true
  \/ exists x y, coordinates = Some (mkCoordinates (Some x) (Some y)).

End CacheSpec.

(** ** The rendered document *)

Module RenderSpec.
Import Plugin.







End RenderSpec.

(** ** Sample inputs *)

Module Sample.

Definition box (x y w h : Q) : BoundingBox :=
  mkBox (Some x) (Some y) (Some w) (Some h).

(** A page with one frame. *)
Definition header : Node := mkNode "1:2" "FRAME" "Header" (Some (box 0 0 10 10)) [].
Definition page : Node := mkNode "0:1" "CANVAS" "Page 1" None [header].
Definition doc : Node := mkNode "0:0" "DOCUMENT" "Document" None [page].
Definition file : FileData := mkFileData (Some doc).



Fixpoint digits (s : string) (acc : Z) : Z :=
  match s with
  | EmptyString => acc
  | String c rest => digits rest (10 * acc + Z.of_nat (nat_of_ascii c) - 48)%Z
  end.

(** A platform that serves [file] for every key and on which dates are
    written as millisecond counts. *)
Definition platform : Platform :=
  mkPlatform (fun _ _ => HttpResponse 200 file) (fun _ => "n")
    (fun s => digits s 0) (fun s => s) "now" "now".

(** A platform whose every request fails. *)
Definition offline : Platform :=
  mkPlatform (fun k _ => if Nat.even k then NetworkError
                         else HttpResponse 500 (mkFileData None))
    (fun _ => "n") (fun s => digits s 0) (fun s => s) "now" "now".

Definition rootInfo : FrameInfo := mkFrameInfo "1:2" "Root" "Page 1" "Root".

(** An entry written at time [0] that holds one resolution. *)
Definition entry : FrameCache :=
  mkFrameCache "K" 0 {["1:2" := rootInfo]} (Some file).

Definition warm : FrameInfoFetcher.Fetcher :=
  FrameInfoFetcher.mkFetcher {["K" := entry]} ["K"].

Definition cold : FrameInfoFetcher.Fetcher := FrameInfoFetcher.mkFetcher ∅ [].

(** Three comments, two open and one resolved. *)
Definition designFile : FigmaFile := mkFigmaFile "f1" "Design" "ABC123XYZ" true.

Definition comments : list FigmaComment :=
  [ mkFigmaComment "c1" None "ann" "1000" None "first" None;
    mkFigmaComment "c2" None "bob" "3000" (Some "3500") "second" None;
    mkFigmaComment "c3" None "cy" "2000" None "third" None ].

Definition content : string :=
  Eval vm_compute in
    match fst (Plugin.saveCommentsToSingleFile platform 0 false None designFile
                 comments) with
    | Ret c => c
    | Throw _ => ""
    end.

End Sample.

(** ** Definitions for the further properties *)

Module TreeSpec.
Import FrameInfoFetcher.

(** The nodes of a tree in pre-order. *)
Fixpoint nodes (node : Node) : list Node :=
  node
  :: match node with
     | mkNode _ _ _ _ children =>
         (fix each (cs : list Node) : list Node :=
            match cs with
            | [] => []
            | child :: rest => nodes child ++ each rest
            end) children
     end.

(** Some node of the tree under [node], [node] included, has the
    identifier [nodeId]. *)
Definition occursIn (nodeId : string) (node : Node) : Prop :=
  exists n, In n (nodes node) /\ NodeF.id n = nodeId.

(** The visited node has the identifier [nodeId]. *)
Definition hasId (nodeId : string) (c : Node * list Node) : bool :=
  (NodeF.id (fst c) =? nodeId)%string.

(** [s] ends with [suffix]. *)
Definition endsWith (s suffix : string) : Prop :=
  exists prefix, s = (prefix ++ suffix)%string.

(** The box with all four fields present. *)
Definition fullBox (bx by_ w h : Q) : BoundingBox :=
  mkBox (Some bx) (Some by_) (Some w) (Some h).

End TreeSpec.

(** ** Definitions for the requests of a rendering *)

Module SyncSpec.
Import Plugin.

(** The comment is attached to a node: its [client_meta] has a non-empty
    [node_id]. *)
Definition anchored (comment : FigmaComment) : bool :=
  match client_meta comment with
  | Some meta => truthy (node_id meta)
  | None => false
  end.

(** The character [c] does not occur in [s]. *)
Fixpoint lacks (c : ascii) (s : string) : Prop :=
  match s with
  | EmptyString => True
  | String d rest => d <> c /\ lacks c rest
  end.

(** The number of occurrences of [c] in [s]. *)
Fixpoint occurrences (c : ascii) (s : string) : nat :=
  match s with
  | EmptyString => 0
  | String d rest => (if Ascii.eqb d c then 1 else 0) + occurrences c rest
  end.

End SyncSpec.

(** * Properties *)

(** ** [TokenManager] *)

Section Base64Facts.
Import JS Base64.
#[local] Open Scope N_scope.

Lemma range_forallb (P : N -> bool) (n : nat) :
  forallb P (range n) = true -> forall x, x < N.of_nat n -> P x = true.
Proof.
  intros H x Hx. rewrite forallb_forall in H. apply H.
  unfold range. rewrite <- (N2Nat.id x). apply in_map, in_seq. lia.
Qed.

Lemma list_ind3 {A : Type} (P : list A -> Prop) :
  P [] -> (forall a, P [a]) -> (forall a b, P [a; b]) ->
  (forall a b c l, P l -> P (a :: b :: c :: l)) ->
  forall l, P l.
Proof.
  intros H0 H1 H2 H3.
  fix IH 1. intros [|a [|b [|c l]]];
    [exact H0 | apply H1 | apply H2 | apply H3, IH].
Qed.

Lemma alphabet_ok_all i : i < 64 -> alphabet_ok i = true.
Proof. apply (range_forallb alphabet_ok 64). vm_compute. reflexivity. Qed.

Lemma head_ok_all a v : a < 256 -> v < 16 -> head_ok a v = true.
Proof.
  intros Ha Hv.
  apply (range_forallb (fun v => head_ok a v) 16); [|exact Hv].
  revert a Ha.
  apply (range_forallb (fun a => forallb (fun v => head_ok a v) (range 16)) 256).
  vm_compute. reflexivity.
Qed.

Lemma middle_ok_all t b u : t < 4 -> b < 256 -> u < 4 -> middle_ok t b u = true.
Proof.
  intros Ht Hb Hu.
  apply (range_forallb (fun u => middle_ok t b u) 4); [|exact Hu].
  revert b Hb.
  apply (range_forallb (fun b => forallb (fun u => middle_ok t b u) (range 4)) 256).
  revert t Ht.
  apply (range_forallb
           (fun t => forallb (fun b => forallb (fun u => middle_ok t b u) (range 4))
                       (range 256)) 4).
  vm_compute. reflexivity.
Qed.

Lemma tail_ok_all u c : u < 16 -> c < 256 -> tail_ok u c = true.
Proof.
  intros Hu Hc.
  apply (range_forallb (fun c => tail_ok u c) 256); [|exact Hc].
  revert u Hu.
  apply (range_forallb (fun u => forallb (fun c => tail_ok u c) (range 256)) 16).
  vm_compute. reflexivity.
Qed.

Ltac split_ok H :=
  repeat (apply andb_prop in H; destruct H as [H ?]);
  repeat match goal with
    | K : (_ <? _) = true |- _ => apply N.ltb_lt in K
    | K : (_ =? _) = true |- _ => apply N.eqb_eq in K
    | K : negb _ = true |- _ => apply negb_true_iff in K
    end.

Lemma encode_bytes_split bs :
  encode_bytes bs = map alphabet_char (sextets bs) ++ padding bs.
Proof.
  induction bs as [|a|a b|a b c l IH] using list_ind3; try reflexivity.
  cbn [encode_bytes sextets map app]. rewrite IH. do 4 f_equal.
  unfold padding. cbn [List.length].
  replace (S (S (S (List.length l)))) with (List.length l + 1 * 3)%nat by lia.
  now rewrite Nat.Div0.mod_add.
Qed.

Lemma padding_cases bs :
  padding bs = [] \/ padding bs = [pad_char] \/ padding bs = [pad_char; pad_char].
Proof.
  unfold padding. destruct (List.length bs mod 3)%nat as [|[|[|k]]]; auto.
Qed.

Lemma encode_bytes_length bs : (List.length (encode_bytes bs) mod 4 = 0)%nat.
Proof.
  induction bs as [|a|a b|a b c l IH] using list_ind3; try reflexivity.
  cbn [encode_bytes List.length].
  replace (S (S (S (S (List.length (encode_bytes l))))))
    with (List.length (encode_bytes l) + 1 * 4)%nat by lia.
  now rewrite Nat.Div0.mod_add.
Qed.

Lemma sextets_bound bs :
  Forall (fun c => c < 256) bs -> Forall (fun s => s < 64) (sextets bs).
Proof.
  induction bs as [|a|a b|a b c l IH] using list_ind3; intros Hbs.
  - constructor.
  - inversion_clear Hbs as [|? ? Ha _].
    pose proof (head_ok_all a 0 Ha ltac:(lia)) as OKa. split_ok OKa.
    rewrite N.lor_0_r in *. cbn [sextets]. repeat constructor; assumption.
  - inversion_clear Hbs as [|? ? Ha Hbs']. inversion_clear Hbs' as [|? ? Hb _].
    pose proof (head_ok_all b 0 Hb ltac:(lia)) as OKb. split_ok OKb.
    pose proof (head_ok_all a (N.shiftr b 4) Ha ltac:(assumption)) as OKa.
    split_ok OKa.
    pose proof (middle_ok_all (N.land a 3) b 0 ltac:(assumption) Hb ltac:(lia)) as OKm.
    split_ok OKm. rewrite N.lor_0_r in *.
    cbn [sextets]. repeat constructor; assumption.
  - inversion_clear Hbs as [|? ? Ha Hbs']. inversion_clear Hbs' as [|? ? Hb Hbs].
    inversion_clear Hbs as [|? ? Hc Hl].
    pose proof (head_ok_all b 0 Hb ltac:(lia)) as OKb. split_ok OKb.
    pose proof (head_ok_all c 0 Hc ltac:(lia)) as OKc. split_ok OKc.
    pose proof (head_ok_all a (N.shiftr b 4) Ha ltac:(assumption)) as OKa.
    split_ok OKa.
    pose proof (middle_ok_all (N.land a 3) b (N.shiftr c 6)
                  ltac:(assumption) Hb ltac:(assumption)) as OKm.
    split_ok OKm.
    cbn [sextets]. repeat (constructor; [assumption|]). auto.
Qed.

Lemma decode_sextets_sextets bs :
  Forall (fun c => c < 256) bs -> decode_sextets (sextets bs) = bs.
Proof.
  induction bs as [|a|a b|a b c l IH] using list_ind3; intros Hbs.
  - reflexivity.
  - inversion_clear Hbs as [|? ? Ha _].
    pose proof (head_ok_all a 0 Ha ltac:(lia)) as OKa. split_ok OKa.
    rewrite N.lor_0_r in *. cbn [sextets decode_sextets]. congruence.
  - inversion_clear Hbs as [|? ? Ha Hbs']. inversion_clear Hbs' as [|? ? Hb _].
    pose proof (head_ok_all b 0 Hb ltac:(lia)) as OKb. split_ok OKb.
    pose proof (head_ok_all a (N.shiftr b 4) Ha ltac:(assumption)) as OKa.
    split_ok OKa.
    pose proof (middle_ok_all (N.land a 3) b 0 ltac:(assumption) Hb ltac:(lia)) as OKm.
    split_ok OKm. rewrite N.lor_0_r in *.
    cbn [sextets decode_sextets]. congruence.
  - inversion_clear Hbs as [|? ? Ha Hbs']. inversion_clear Hbs' as [|? ? Hb Hbs].
    inversion_clear Hbs as [|? ? Hc Hl].
    pose proof (head_ok_all b 0 Hb ltac:(lia)) as OKb. split_ok OKb.
    pose proof (head_ok_all c 0 Hc ltac:(lia)) as OKc. split_ok OKc.
    pose proof (head_ok_all a (N.shiftr b 4) Ha ltac:(assumption)) as OKa.
    split_ok OKa.
    pose proof (middle_ok_all (N.land a 3) b (N.shiftr c 6)
                  ltac:(assumption) Hb ltac:(assumption)) as OKm.
    split_ok OKm.
    pose proof (tail_ok_all (N.land b 15) c ltac:(assumption) Hc) as OKt.
    unfold tail_ok in OKt. apply N.eqb_eq in OKt.
    cbn [sextets decode_sextets]. rewrite IH by assumption. congruence.
Qed.

Lemma sextets_length bs : (List.length (sextets bs) mod 4 <> 1)%nat.
Proof.
  induction bs as [|a|a b|a b c l IH] using list_ind3; try (cbn; lia).
  cbn [sextets List.length].
  replace (S (S (S (S (List.length (sextets l))))))
    with (List.length (sextets l) + 1 * 4)%nat by lia.
  now rewrite Nat.Div0.mod_add.
Qed.

Lemma sextets_of_alphabet l :
  Forall (fun s => s < 64) l -> sextets_of (map alphabet_char l) = Some l.
Proof.
  induction 1 as [|s l Hs Hl IH]; [reflexivity|].
  cbn [map sextets_of]. rewrite IH.
  pose proof (alphabet_ok_all s Hs) as OKs. unfold alphabet_ok in OKs.
  destruct (alphabet_index (alphabet_char s)) as [j|]; [|discriminate].
  split_ok OKs. congruence.
Qed.

Lemma alphabet_not_pad l :
  Forall (fun s => s < 64) l ->
  Forall (fun c => (c =? pad_char) = false) (map alphabet_char l).
Proof.
  induction 1 as [|s l Hs Hl IH]; constructor; [|assumption].
  pose proof (alphabet_ok_all s Hs) as OKs. unfold alphabet_ok in OKs.
  destruct (alphabet_index (alphabet_char s)); [|discriminate].
  split_ok OKs. assumption.
Qed.

Lemma filter_whitespace_encode bs :
  Forall (fun c => c < 256) bs ->
  List.filter (fun c => negb (is_ascii_whitespace c)) (encode_bytes bs)
  = encode_bytes bs.
Proof.
  intros Hbs. rewrite encode_bytes_split.
  apply forallb_filter_id. rewrite forallb_app. apply andb_true_intro. split.
  - apply sextets_bound in Hbs. apply forallb_forall. intros c Hc.
    apply in_map_iff in Hc as (s & <- & Hs).
    rewrite List.Forall_forall in Hbs. pose proof (alphabet_ok_all s (Hbs s Hs)) as H.
    unfold alphabet_ok in H.
    destruct (alphabet_index (alphabet_char s)); [|discriminate].
    apply andb_prop in H. tauto.
  - destruct (padding_cases bs) as [-> | [-> | ->]]; reflexivity.
Qed.

Lemma strip_padding_body (body pads : list N) :
  (List.length (body ++ pads) mod 4 = 0)%nat ->
  Forall (fun c => (c =? pad_char) = false) body ->
  pads = [] \/ pads = [pad_char] \/ pads = [pad_char; pad_char] ->
  strip_padding (body ++ pads) = body.
Proof.
  intros Hlen Hbody Hpads. unfold strip_padding.
  rewrite Hlen. cbn [Nat.eqb]. rewrite rev_app_distr.
  assert (Hrev : Forall (fun c => (c =? pad_char) = false) (rev body)).
  { apply List.Forall_forall. intros c Hc. rewrite List.Forall_forall in Hbody.
    apply Hbody. now apply in_rev. }
  destruct Hpads as [-> | [-> | ->]]; cbn [rev app].
  - rewrite app_nil_r.
    destruct (rev body) as [|p1 [|p2 r]] eqn:E; try reflexivity;
      inversion_clear Hrev as [|? ? Hp1 _]; now rewrite Hp1.
  - rewrite N.eqb_refl.
    destruct (rev body) as [|p2 r] eqn:E.
    + destruct body as [|c body']; [reflexivity|].
      apply (f_equal (@List.length N)) in E. rewrite length_rev in E. discriminate.
    + inversion_clear Hrev as [|? ? Hp2 _]. rewrite Hp2.
      rewrite <- (rev_involutive body), E. reflexivity.
  - rewrite !N.eqb_refl. apply rev_involutive.
Qed.

Lemma atob_encode_bytes bs :
  Forall (fun c => c < 256) bs -> atob (encode_bytes bs) = Ret bs.
Proof.
  intros Hbs. unfold atob. rewrite filter_whitespace_encode by assumption.
  pose proof (encode_bytes_length bs) as Hlen.
  rewrite encode_bytes_split in *.
  rewrite strip_padding_body;
    [| assumption | apply alphabet_not_pad, sextets_bound, Hbs | apply padding_cases].
  rewrite length_map.
  destruct (Nat.eqb_spec (List.length (sextets bs) mod 4) 1) as [E|_].
  - now apply sextets_length in E.
  - rewrite sextets_of_alphabet by (apply sextets_bound, Hbs).
    now rewrite decode_sextets_sextets.
Qed.
End Base64Facts.

Section TokenManagerFacts.
Import JS TokenManager.
#[local] Open Scope N_scope.

Lemma key_char_bound i :
  charCodeAt SECRET_KEY (i mod List.length SECRET_KEY) < 128.
Proof.
  assert (K : forallb (fun k => k <? 128) SECRET_KEY = true) by reflexivity.
  rewrite forallb_forall in K. apply N.ltb_lt, K. unfold charCodeAt.
  apply nth_In. apply Nat.mod_upper_bound. discriminate.
Qed.

Lemma log2_lt_16 a : a < 65536 -> N.log2 a < 16.
Proof.
  intros Ha. destruct (N.eq_dec a 0) as [-> | Hne]; [reflexivity|].
  apply (N.log2_lt_pow2 a 16); lia.
Qed.

Lemma lxor_code_unit c k : c < 65536 -> k < 128 -> N.lxor c k < 65536.
Proof.
  intros Hc Hk. destruct (N.eq_dec (N.lxor c k) 0) as [-> | Hne]; [lia|].
  apply (N.log2_lt_pow2 _ 16); [lia|].
  eapply N.le_lt_trans; [apply N.log2_lxor|].
  apply N.max_lub_lt; apply log2_lt_16; lia.
Qed.

Lemma xor_twice c k :
  c < 65536 -> k < 128 ->
  fromCharCode (N.lxor (fromCharCode (N.lxor c k)) k) = c.
Proof.
  intros Hc Hk. unfold fromCharCode.
  rewrite (N.mod_small (N.lxor c k)) by now apply lxor_code_unit.
  rewrite N.lxor_assoc, N.lxor_nilpotent, N.lxor_0_r.
  now apply N.mod_small.
Qed.

Lemma xorLoop_involutive text i :
  is_jsstring text -> xorLoop (xorLoop text i) i = text.
Proof.
  intros Htext. revert i.
  induction Htext as [|c rest Hc Hrest IH]; intros i; [reflexivity|].
  cbn [xorLoop]. rewrite IH. f_equal. apply xor_twice; [assumption|].
  apply key_char_bound.
Qed.

Lemma xorLoop_ascii text i :
  Forall (fun c => c < 128) text -> Forall (fun c => c < 256) (xorLoop text i).
Proof.
  intros Htext. revert i.
  induction Htext as [|c rest Hc Hrest IH]; intros i; constructor; [|apply IH].
  unfold fromCharCode.
  pose proof (key_char_bound i) as Hk.
  set (k := charCodeAt SECRET_KEY (i mod List.length SECRET_KEY)) in *.
  assert (Hx : N.lxor c k < 256).
  { destruct (N.eq_dec (N.lxor c k) 0) as [-> | Hne]; [lia|].
    apply (N.log2_lt_pow2 _ 8); [lia|].
    eapply N.le_lt_trans; [apply N.log2_lxor|].
    assert (L : forall a, a < 128 -> N.log2 a < 8).
    { intros a Ha. destruct (N.eq_dec a 0) as [-> | Hne']; [reflexivity|].
      apply (N.log2_lt_pow2 a 8); lia. }
    apply N.max_lub_lt; apply L; assumption. }
  rewrite N.mod_small; lia.
Qed.

Lemma Forall_ltb (n : N) (l : list N) :
  forallb (fun c => c <? n) l = true -> Forall (fun c => c < n) l.
Proof.
  intros H. apply List.Forall_forall. intros c Hc. apply N.ltb_lt.
  rewrite forallb_forall in H. now apply H.
Qed.

Lemma ascii_is_jsstring text :
  Forall (fun c => c < 128) text -> is_jsstring text.
Proof.
  intros H. eapply List.Forall_impl; [|exact H]. cbv beta. intros; lia.
Qed.

(** Encrypting and decrypting again, for a token whose XOR-ed characters
    fit in a byte. *)
Lemma decrypt_encrypt_latin1 token :
  is_jsstring token ->
  Forall (fun c => c < 256) (xorLoop token 0) ->
  exists e, encrypt token = Ret e /\ decrypt e = token.
Proof.
  intros Hwf Hbytes. destruct token as [|c rest]; [exists []; split; reflexivity|].
  exists (encode_bytes (xorLoop (c :: rest) 0)). split.
  - unfold encrypt, btoa.
    replace (forallb (fun c0 => c0 <? 256) (xorLoop (c :: rest) 0)) with true;
      [reflexivity|].
    symmetry. apply forallb_forall. intros d Hd. apply N.ltb_lt.
    rewrite List.Forall_forall in Hbytes. now apply Hbytes.
  - assert (Hne : exists d ds, encode_bytes (xorLoop (c :: rest) 0) = d :: ds).
    { cbn [xorLoop encode_bytes].
      destruct (xorLoop rest 1) as [|? [|? ?]]; eauto. }
    destruct Hne as (d & ds & Hne). unfold decrypt. rewrite Hne, <- Hne.
    rewrite atob_encode_bytes by assumption.
    now apply xorLoop_involutive.
Qed.

End TokenManagerFacts.

(** C10. A token that is a JavaScript string and whose characters, XOR-ed with
    the key, stay below 256 is recovered by [decrypt] from [encrypt]; this
    covers every ASCII token; and both functions send the empty string to the
    empty string. *)
Theorem TokenManager_decrypt_encrypt (token : JS.jsstring) :
  JS.is_jsstring token ->
  (Forall (fun c => (c < 256)%N) (TokenManager.xorLoop token 0) -> roundtrips token)
  /\ (Forall (fun c => (c < 128)%N) token -> roundtrips token)
  /\ TokenManager.encrypt [] = Ret []
  /\ TokenManager.decrypt [] = [].
Proof.
  intros Hwf. split; [|split; [|split; reflexivity]].
  - intros Hbytes. now apply decrypt_encrypt_latin1.
  - intros Hascii. apply decrypt_encrypt_latin1; [assumption|].
    now apply xorLoop_ascii.
Qed.

Lemma TokenManager_decrypt_encrypt_witness :
  roundtrips (JS.of_string "figd_Abc-123").
Proof.
  refine (proj1 (proj2 (TokenManager_decrypt_encrypt (JS.of_string "figd_Abc-123") _)) _).
  - apply Forall_ltb. vm_compute. reflexivity.
  - apply Forall_ltb. vm_compute. reflexivity.
Defined.

(** ** [findFrameInfo] *)

Section FindFrameInfo.
Import FrameInfoFetcher.

Lemma isCanvas_not_frame n : isCanvas n = true -> isFrameNode n = false.
Proof.
  unfold isCanvas, isFrameNode. intros H. apply String.eqb_eq in H. now rewrite H.
Qed.

Lemma searchPages_path nodeId pages s :
  path (searchPages nodeId pages s) = path s
  \/ exists page, isCanvas page = true
                  /\ path (searchPages nodeId pages s) = page :: path s.
Proof.
  revert s. induction pages as [|page rest IH]; intros s; [now left|].
  cbn [searchPages]. destruct (isCanvas page) eqn:Hc; [|apply IH].
  destruct (findNode nodeId page [page]).
  - right. exists page. split; [assumption|reflexivity].
  - apply (IH (mkSearch (path s) (frameFound s) (NodeF.name page))).
Qed.

Lemma findFrameInfo_Root nodeId fileData info :
  findFrameInfo nodeId fileData = Some info ->
  frameName info = "Root" /\ fullPath info = "Root".
Proof.
  unfold findFrameInfo.
  set (s := match document fileData with
            | Some doc => searchPages nodeId (NodeF.children doc) (mkSearch [] false "")
            | None => mkSearch [] false ""
            end).
  assert (Hp : path s = [] \/ exists page, isCanvas page = true /\ path s = [page]).
  { subst s. destruct (document fileData) as [doc|]; [|now left].
    apply (searchPages_path nodeId (NodeF.children doc) (mkSearch [] false "")). }
  destruct (frameFound s); [|discriminate]. cbn [negb].
  destruct Hp as [-> | (page & Hc & ->)].
  - intros [= <-]. auto.
  - cbn [List.filter]. rewrite (isCanvas_not_frame page Hc).
    intros [= <-]. auto.
Qed.
End FindFrameInfo.

(** C1. Whatever node [findFrameInfo] finds, the container name and the full
    path it returns are the literal ["Root"]: the path it filters holds the
    page alone, so the nearest container of the matched node is never
    looked at. *)
Theorem findFrameInfo_always_Root (nodeId : string) (fileData : FileData)
    (info : FrameInfo) :
  FrameInfoFetcher.findFrameInfo nodeId fileData = Some info ->
  frameName info = "Root" /\ fullPath info = "Root".
Proof. apply findFrameInfo_Root. Qed.

Lemma findFrameInfo_always_Root_witness :
  FrameInfoFetcher.findFrameInfo "1:2" Sample.file
  = Some (mkFrameInfo "1:2" "Root" "Page 1" "Root")
  /\ frameName (mkFrameInfo "1:2" "Root" "Page 1" "Root") = "Root"
  /\ fullPath (mkFrameInfo "1:2" "Root" "Page 1" "Root") = "Root".
Proof.
  split; [reflexivity|].
  apply (findFrameInfo_always_Root "1:2" Sample.file). reflexivity.
Defined.

(** On the sample file the node ["1:2"] is the frame ["Header"] itself, so
    its nearest container is ["Header"], not ["Root"]. *)
Lemma findFrameInfo_misses_container :
  Spec.pathTo "1:2" Sample.doc = Some [Sample.doc; Sample.page; Sample.header]
  /\ Spec.nearestContainerName [Sample.doc; Sample.page; Sample.header] = "Header"
  /\ option_map frameName (FrameInfoFetcher.findFrameInfo "1:2" Sample.file)
     = Some "Root".
Proof. repeat split. Qed.

(** ** The coordinate search *)

Section Scores.
#[local] Open Scope Q_scope.








End Scores.

Section Traversal.
Import FrameInfoFetcher Spec.

(** [traverseNodes] calls back on the nodes in pre-order. *)
Lemma traverseNodes_preorder {S : Type} (callback : Node -> list Node -> S -> S)
    (node : Node) :
  forall path s,
    traverseNodes node callback path s
    = fold_left (fun s c => callback (fst c) (snd c) s) (preorder node path) s.
Proof.
  induction node as [id type name box children IH] using Node_tree_ind.
  intros path s. cbn [traverseNodes preorder fold_left fst snd].
  generalize (callback (mkNode id type name box children)
                (path ++ [mkNode id type name box children]) s).
  generalize (path ++ [mkNode id type name box children]) as currentPath.
  intros currentPath.
  induction IH as [|child rest Hchild _ IHrest]; intros s1; [reflexivity|].
  rewrite fold_left_app, <- Hchild. apply IHrest.
Qed.
End Traversal.

Section Selection.
Import FrameInfoFetcher Spec.
#[local] Open Scope Q_scope.

Variable numer : Q.
Hypothesis numer_pos : 0 < numer.
Variables x y : Q.









End Selection.

Section SelectionFacts.
Import FrameInfoFetcher Spec.
#[local] Open Scope Q_scope.

Lemma app_cons_split {A : Type} (l1 : list A) a l2 l1' a' l2' :
  l1 ++ a :: l2 = l1' ++ a' :: l2' ->
  (l1 = l1' /\ a = a' /\ l2 = l2') \/ In a l1' \/ In a' l1.
Proof.
  revert l1'. induction l1 as [|b l1 IH]; intros [|b' l1']; cbn; intros [= ? E]; subst.
  - now left.
  - right. left. now left.
  - right. right. now left.
  - destruct (IH _ E) as [(-> & -> & ->) | [H | H]]; auto.
Qed.

End SelectionFacts.






(** ** The cache and the resolver *)

Section Cache.
Import FrameInfoFetcher CacheSpec.
#[local] Open Scope Z_scope.

Lemma getCachedFrameInfo_absent now fk key st :
  cache st !! fk = None -> getCachedFrameInfo now fk key st = (None, st).
Proof. intros H. unfold getCachedFrameInfo. now rewrite H. Qed.

Lemma getCachedFrameInfo_valid now fk key st e :
  cache st !! fk = Some e -> now - lastUpdated e <= DAY ->
  getCachedFrameInfo now fk key st = (frameMap e !! key, st).
Proof.
  intros H Hage. unfold getCachedFrameInfo. rewrite H.
  destruct (Z.gtb_spec (now - lastUpdated e) DAY); [lia|reflexivity].
Qed.

Lemma getCachedFrameInfo_expired now fk key st e :
  cache st !! fk = Some e -> DAY < now - lastUpdated e ->
  getCachedFrameInfo now fk key st = (None, evict fk st).
Proof.
  intros H Hage. unfold getCachedFrameInfo. rewrite H.
  destruct (Z.gtb_spec (now - lastUpdated e) DAY); [reflexivity|lia].
Qed.

Lemma getCachedFrameInfo_evict now fk key st e :
  cache st !! fk = Some e -> DAY < now - lastUpdated e ->
  getCachedFrameInfo now fk key st = getCachedFrameInfo now fk key (evict fk st).
Proof.
  intros H Hage. rewrite (getCachedFrameInfo_expired _ _ _ _ _ H Hage).
  symmetry. apply getCachedFrameInfo_absent. cbn. apply lookup_delete_eq.
Qed.

Lemma getCachedFrameInfo_requests now fk key st :
  requests (snd (getCachedFrameInfo now fk key st)) = requests st.
Proof.
  unfold getCachedFrameInfo. destruct (cache st !! fk) as [e|]; [|reflexivity].
  destruct (now - lastUpdated e >? DAY); reflexivity.
Qed.

Lemma fetchFileStructure_requests P now fk st :
  requests (snd (fetchFileStructure P now fk st)) = requests st ++ [fk].
Proof.
  unfold fetchFileStructure.
  destruct (requestUrl P (List.length (requests st)) fk) as [|status data];
    [reflexivity|].
  destruct (negb (status =? 200)); reflexivity.
Qed.

Lemma fetchFileStructure_success P now fk st data :
  requestUrl P (List.length (requests st)) fk = HttpResponse 200 data ->
  fetchFileStructure P now fk st
  = (Some data,
     mkFetcher
       (match cache st !! fk with
        | None => <[fk := freshEntry fk now data]> (cache st)
        | Some _ => cache st
        end) (requests st ++ [fk])).
Proof. intros H. unfold fetchFileStructure. now rewrite H. Qed.

Lemma fetchFileStructure_failure P now fk st :
  fetchFails (requestUrl P (List.length (requests st)) fk) ->
  fetchFileStructure P now fk st = (None, mkFetcher (cache st) (requests st ++ [fk])).
Proof.
  unfold fetchFails, fetchFileStructure.
  destruct (requestUrl P (List.length (requests st)) fk) as [|status data];
    [reflexivity|].
  intros H. destruct (Z.eqb_spec status 200); [contradiction|reflexivity].
Qed.

End Cache.

Section Resolve.
Import FrameInfoFetcher CacheSpec.
#[local] Open Scope Z_scope.

Lemma getFrameInfoByNodeId_resolveBy P now fk nodeId st :
  getFrameInfoByNodeId P now fk nodeId st
  = resolveBy (fun data => Ret (findFrameInfo nodeId data)) P now fk nodeId st.
Proof.
  unfold getFrameInfoByNodeId, resolveBy.
  destruct (getCachedFrameInfo now fk nodeId st) as [[info|] st1]; [reflexivity|].
  destruct (fetchFileStructure P now fk st1) as [[data|] st2]; [|reflexivity].
  destruct (findFrameInfo nodeId data); reflexivity.
Qed.

Lemma getFrameInfoByCoordinates_resolveBy P now fk x y st :
  getFrameInfoByCoordinates P now fk x y st
  = resolveBy (findFrameAtCoordinates x y) P now fk (coordKey P x y) st.
Proof.
  unfold getFrameInfoByCoordinates, resolveBy.
  destruct (getCachedFrameInfo now fk (coordKey P x y) st) as [[info|] st1];
    [reflexivity|].
  destruct (fetchFileStructure P now fk st1) as [[data|] st2]; [|reflexivity].
  destruct (findFrameAtCoordinates x y data) as [[info|]|e]; reflexivity.
Qed.

(** [getFrameInfo] either resolves along one of the two routes or has
    nothing to resolve. *)
Lemma getFrameInfo_route P fk nodeId coordinates :
  (exists find, forall now st,
        getFrameInfo P now fk nodeId coordinates st
        = resolveBy find P now fk (resolutionKey P nodeId coordinates) st)
  \/ (forall now st, getFrameInfo P now fk nodeId coordinates st = (Ret None, st)).
Proof.
  unfold getFrameInfo, resolutionKey. destruct (isRealNodeId nodeId).
  - left. eexists. intros now st. apply getFrameInfoByNodeId_resolveBy.
  - destruct coordinates as [[[x|] [y|]]|]; cbn [coord_x coord_y]; try (now right).
    left. eexists. intros now st. apply getFrameInfoByCoordinates_resolveBy.
Qed.

Lemma getCachedFrameInfo_cases now fk key st :
  (exists info, getCachedFrameInfo now fk key st = (Some info, st)
                /\ exists e, cache st !! fk = Some e
                             /\ now - lastUpdated e <= DAY
                             /\ frameMap e !! key = Some info)
  \/ (exists st1, getCachedFrameInfo now fk key st = (None, st1)
                  /\ requests st1 = requests st
                  /\ (st1 = st \/ st1 = evict fk st)
                  /\ (cache st !! fk = None -> cache st1 !! fk = None)).
Proof.
  unfold getCachedFrameInfo. destruct (cache st !! fk) as [e|] eqn:E.
  - destruct (Z.gtb_spec (now - lastUpdated e) DAY) as [Hold | Hok].
    + right. eexists. repeat split; auto. discriminate.
    + destruct (frameMap e !! key) as [info|] eqn:F.
      * left. exists info. split; [reflexivity|]. exists e. auto.
      * right. exists st. repeat split; auto. discriminate.
  - right. exists st. repeat split; auto.
Qed.


Lemma resolveBy_expired find P now fk key st e :
  cache st !! fk = Some e -> DAY < now - lastUpdated e ->
  resolveBy find P now fk key st = resolveBy find P now fk key (evict fk st)
  /\ requests (snd (resolveBy find P now fk key st)) = requests st ++ [fk].
Proof.
  intros He Hold. unfold resolveBy.
  rewrite <- (getCachedFrameInfo_evict now fk key st e He Hold).
  split; [reflexivity|].
  rewrite (getCachedFrameInfo_expired now fk key st e He Hold).
  pose proof (fetchFileStructure_requests P now fk (evict fk st)) as Hreq.
  destruct (fetchFileStructure P now fk (evict fk st)) as [[data|] st2];
    [|exact Hreq].
  destruct (find data) as [[info|]|err]; exact Hreq.
Qed.

Lemma resolveBy_fetch_failure find P now fk key st :
  fetchFails (requestUrl P (List.length (requests st)) fk) ->
  (exists info, resolveBy find P now fk key st = (Ret (Some info), st))
  \/ (fst (resolveBy find P now fk key st) = Ret None
      /\ requests (snd (resolveBy find P now fk key st)) = requests st ++ [fk]).
Proof.
  intros Hfail. unfold resolveBy.
  destruct (getCachedFrameInfo_cases now fk key st)
    as [(info & Hc & _) | (st1 & Hc & Hreq & _ & _)]; rewrite Hc.
  - left. now exists info.
  - right. rewrite fetchFileStructure_failure by now rewrite Hreq.
    cbn. now rewrite Hreq.
Qed.
End Resolve.

(** C4, as stated, fails in [main.ts]: a successful fetch for a file key
    that already has an entry leaves that entry as it is. *)
Lemma fetchFileStructure_keeps_existing_entry :
  ~ (forall (P : Platform) (now : Z) (fk : string)
            (st : FrameInfoFetcher.Fetcher) (data : FileData),
        requestUrl P (List.length (FrameInfoFetcher.requests st)) fk
        = HttpResponse 200 data ->
        FrameInfoFetcher.cache
          (snd (FrameInfoFetcher.fetchFileStructure P now fk st)) !! fk
        = Some (mkFrameCache fk now ∅ (Some data))).
Proof.
  intros H.
  specialize (H Sample.platform 1000%Z "K" Sample.warm Sample.file eq_refl).
  rewrite (fetchFileStructure_success Sample.platform 1000%Z "K" Sample.warm
             Sample.file eq_refl) in H.
  apply (f_equal (fmap lastUpdated)) in H. vm_compute in H. discriminate.
Qed.

(** C4, amended.  A successful fetch ([status 200]) in [main.ts] returns the
    structure and creates the entry (time of the fetch, no resolutions, the
    structure attached) only when the file key has none; an existing
    entry, with its time stamp and its resolutions, is kept.  The JavaScript
    module, which fetches only when the key has no entry younger than 24
    hours, replaces the entry whenever the response is [ok]. *)
Theorem fetchFileStructure_put (P : Platform) (now : Z) (fk : string)
    (st : FrameInfoFetcher.Fetcher) (status : Z) (data : FileData) :
  requestUrl P (List.length (FrameInfoFetcher.requests st)) fk
  = HttpResponse status data ->
  (status = 200%Z ->
   let r := FrameInfoFetcher.fetchFileStructure P now fk st in
   fst r = Some data
   /\ FrameInfoFetcher.requests (snd r) = FrameInfoFetcher.requests st ++ [fk]
   /\ FrameInfoFetcher.cache (snd r) !! fk
      = Some (match FrameInfoFetcher.cache st !! fk with
              | Some existing => existing
              | None => mkFrameCache fk now ∅ (Some data)
              end)
   /\ forall k, k <> fk ->
                FrameInfoFetcher.cache (snd r) !! k = FrameInfoFetcher.cache st !! k)
  /\ (CoordinateBasedFrameDetector.ok status = true ->
      (forall e, FrameInfoFetcher.cache st !! fk = Some e ->
                 (FrameInfoFetcher.DAY <= now - lastUpdated e)%Z) ->
      let r := CoordinateBasedFrameDetector.fetchFileStructure P now fk st in
      fst r = Some data
      /\ FrameInfoFetcher.requests (snd r) = FrameInfoFetcher.requests st ++ [fk]
      /\ FrameInfoFetcher.cache (snd r)
         = <[fk := mkFrameCache fk now ∅ (Some data)]> (FrameInfoFetcher.cache st)).
Proof.
  intros Hresp. split.
  - intros ->. cbv zeta. rewrite (fetchFileStructure_success _ _ _ _ _ Hresp).
    cbn [fst snd FrameInfoFetcher.requests FrameInfoFetcher.cache].
    repeat split.
    + destruct (FrameInfoFetcher.cache st !! fk) as [e|] eqn:E; [exact E|].
      apply lookup_insert_eq.
    + intros k Hk. destruct (FrameInfoFetcher.cache st !! fk); [reflexivity|].
      now apply lookup_insert_ne.
  - intros Hok Hexp. cbv zeta. unfold CoordinateBasedFrameDetector.fetchFileStructure.
    rewrite Hresp, Hok. cbn [negb].
    destruct (FrameInfoFetcher.cache st !! fk) as [e|] eqn:E; [|now repeat split].
    destruct (Z.ltb_spec (now - lastUpdated e) FrameInfoFetcher.DAY) as [Hlt|_];
      [|now repeat split].
    specialize (Hexp e eq_refl). lia.
Qed.

Lemma fetchFileStructure_put_witness :
  FrameInfoFetcher.cache
    (snd (FrameInfoFetcher.fetchFileStructure Sample.platform 1000 "K" Sample.warm))
    !! "K" = Some Sample.entry
  /\ FrameInfoFetcher.cache
       (snd (CoordinateBasedFrameDetector.fetchFileStructure Sample.platform
               (FrameInfoFetcher.DAY + 5) "K" Sample.warm))
     = <["K" := mkFrameCache "K" (FrameInfoFetcher.DAY + 5) ∅ (Some Sample.file)]>
         (FrameInfoFetcher.cache Sample.warm).
Proof.
  split.
  - destruct (proj1 (fetchFileStructure_put Sample.platform 1000 "K" Sample.warm
                      200 Sample.file eq_refl) eq_refl) as (_ & _ & H & _).
    exact H.
  - refine (proj2 (proj2 (proj2 (fetchFileStructure_put Sample.platform
                                   (FrameInfoFetcher.DAY + 5) "K" Sample.warm
                                   200 Sample.file eq_refl) eq_refl _))).
    intros e He. change (Some Sample.entry = Some e) in He.
    injection He as <-. vm_compute. discriminate.
Defined.

(** C5, as stated, fails at the boundary: an entry exactly 24 hours old is
    still consulted. *)
Lemma entry_exactly_one_day_old_is_consulted :
  ~ (forall (now : Z) (fk key : string) (st : FrameInfoFetcher.Fetcher)
            (e : FrameCache),
        FrameInfoFetcher.cache st !! fk = Some e ->
        (FrameInfoFetcher.DAY <= now - lastUpdated e)%Z ->
        FrameInfoFetcher.getCachedFrameInfo now fk key st
        = (None, CacheSpec.evict fk st)).
Proof.
  intros H.
  specialize (H FrameInfoFetcher.DAY "K" "1:2" Sample.warm Sample.entry
                eq_refl ltac:(vm_compute; discriminate)).
  rewrite (getCachedFrameInfo_valid FrameInfoFetcher.DAY "K" "1:2" Sample.warm
             Sample.entry eq_refl ltac:(vm_compute; discriminate)) in H.
  apply (f_equal fst) in H. vm_compute in H. discriminate.
Qed.

Lemma resolvable_route P fk nodeId coordinates :
  CacheSpec.resolvable nodeId coordinates ->
  exists find key, forall now st,
      FrameInfoFetcher.getFrameInfo P now fk nodeId coordinates st
      = CacheSpec.resolveBy find P now fk key st.
Proof.
  intros Hres. unfold FrameInfoFetcher.getFrameInfo.
  destruct (FrameInfoFetcher.isRealNodeId nodeId) eqn:Hid.
  - eexists _, _. intros now st. apply getFrameInfoByNodeId_resolveBy.
  - destruct Hres as [Hreal | (x & y & ->)]; [congruence|].
    cbn [coord_x coord_y]. eexists _, _. intros now st.
    apply getFrameInfoByCoordinates_resolveBy.
Qed.

(** C5, amended.  An entry is consulted when it is at most 24 hours old
    ([now - lastUpdated <= DAY]); an entry more than 24 hours old is deleted
    by the read and the read finds nothing.  A resolving call on such an
    entry behaves as on the cache without it and issues exactly one
    structure request. *)
Theorem getCachedFrameInfo_validity_window (now : Z) (fk key : string)
    (st : FrameInfoFetcher.Fetcher) (e : FrameCache) :
  FrameInfoFetcher.cache st !! fk = Some e ->
  ((now - lastUpdated e <= FrameInfoFetcher.DAY)%Z ->
   FrameInfoFetcher.getCachedFrameInfo now fk key st = (frameMap e !! key, st))
  /\ ((FrameInfoFetcher.DAY < now - lastUpdated e)%Z ->
      FrameInfoFetcher.getCachedFrameInfo now fk key st = (None, CacheSpec.evict fk st)
      /\ forall P nodeId coordinates,
          CacheSpec.resolvable nodeId coordinates ->
          FrameInfoFetcher.getFrameInfo P now fk nodeId coordinates st
          = FrameInfoFetcher.getFrameInfo P now fk nodeId coordinates (CacheSpec.evict fk st)
          /\ FrameInfoFetcher.requests
               (snd (FrameInfoFetcher.getFrameInfo P now fk nodeId coordinates st))
             = FrameInfoFetcher.requests st ++ [fk]).
Proof.
  intros He. split.
  - now apply getCachedFrameInfo_valid.
  - intros Hold. split; [now apply getCachedFrameInfo_expired with e|].
    intros P nodeId coordinates Hres.
    destruct (resolvable_route P fk nodeId coordinates Hres) as (find & k & Hroute).
    rewrite !Hroute. now apply resolveBy_expired with e.
Qed.

Lemma getCachedFrameInfo_validity_window_witness :
  FrameInfoFetcher.getCachedFrameInfo FrameInfoFetcher.DAY "K" "1:2" Sample.warm
  = (Some Sample.rootInfo, Sample.warm)
  /\ FrameInfoFetcher.getCachedFrameInfo (FrameInfoFetcher.DAY + 1) "K" "1:2"
       Sample.warm
     = (None, CacheSpec.evict "K" Sample.warm).
Proof.
  pose proof (getCachedFrameInfo_validity_window FrameInfoFetcher.DAY "K" "1:2"
                Sample.warm Sample.entry eq_refl) as [H1 _].
  pose proof (getCachedFrameInfo_validity_window (FrameInfoFetcher.DAY + 1) "K" "1:2"
                Sample.warm Sample.entry eq_refl) as [_ H2].
  split.
  - apply H1. vm_compute. discriminate.
  - apply H2. vm_compute. reflexivity.
Defined.



(** C7. With the placeholder identifier ["0:1"] and no coordinates (or
    coordinates lacking a component) [getFrameInfo] returns [null] and leaves
    the fetcher untouched: no cache read, no request. *)
Theorem getFrameInfo_placeholder (P : Platform) (now : Z) (fk : string)
    (st : FrameInfoFetcher.Fetcher) (x y : option Q) :
  FrameInfoFetcher.getFrameInfo P now fk "0:1" None st = (Ret None, st)
  /\ FrameInfoFetcher.getFrameInfo P now fk "0:1" (Some (mkCoordinates None y)) st
     = (Ret None, st)
  /\ FrameInfoFetcher.getFrameInfo P now fk "0:1" (Some (mkCoordinates x None)) st
     = (Ret None, st).
Proof.
  repeat split; try reflexivity.
  unfold FrameInfoFetcher.getFrameInfo. cbn. now destruct x.
Qed.

(** ** Rendering *)

Section Sorting.
Import Plugin RenderSpec.

Variable P : Platform.


Lemma insertSorted_perm a l :
  Permutation (a :: l) (insertSorted (newestFirst P) a l).
Proof.
  induction l as [|b l IH]; cbn [insertSorted]; [reflexivity|].
  destruct (newestFirst P a b <=? 0)%Z; [reflexivity|].
  rewrite perm_swap. now apply perm_skip.
Qed.

Lemma Array_sort_perm l : Permutation l (Array_sort (newestFirst P) l).
Proof.
  induction l as [|a l IH]; cbn; [reflexivity|].
  rewrite <- insertSorted_perm. now apply perm_skip.
Qed.



End Sorting.

Section Rendering.
Import FrameInfoFetcher Plugin RenderSpec.

Lemma append_assoc (a b c : string) : ((a ++ b) ++ c = a ++ b ++ c)%string.
Proof.
  induction a as [|ch a IH]; [reflexivity|].
  change (String ch ((a ++ b) ++ c) = String ch (a ++ b ++ c))%string.
  now rewrite IH.
Qed.









End Rendering.



Section FetchFailure.
Import FrameInfoFetcher Plugin CacheSpec.

Lemma getFrameInfo_fetch_failure_cases P now fk nodeId coordinates st :
  fetchFails (requestUrl P (List.length (requests st)) fk) ->
  (exists result, getFrameInfo P now fk nodeId coordinates st = (Ret result, st))
  \/ (fst (getFrameInfo P now fk nodeId coordinates st) = Ret None
      /\ requests (snd (getFrameInfo P now fk nodeId coordinates st))
         = requests st ++ [fk]).
Proof.
  intros Hfail.
  destruct (getFrameInfo_route P fk nodeId coordinates) as [(find & H) | H];
    rewrite H.
  - destruct (resolveBy_fetch_failure find P now fk
                (resolutionKey P nodeId coordinates) st Hfail) as [[info E] | E].
    + left. now exists (Some info).
    + now right.
  - left. now exists None.
Qed.

Lemma lookupFrame_offline P now flag file c fetcher :
  (forall k f, fetchFails (requestUrl P k f)) ->
  exists r fetcher', lookupFrame P now flag file c fetcher = (Ret r, fetcher').
Proof.
  intros Hfail. unfold lookupFrame.
  destruct flag; [|now eexists _, _].
  destruct fetcher as [st|]; [|now eexists _, _].
  destruct (client_meta c) as [meta|]; [|now eexists _, _].
  destruct (truthy (node_id meta)); [|now eexists _, _].
  destruct (getFrameInfo_fetch_failure_cases P now (file_key file)
              (default "" (node_id meta)) (node_offset meta) st (Hfail _ _))
    as [[r E] | [E _]].
  - rewrite E. now eexists _, _.
  - destruct (getFrameInfo P now (file_key file) (default "" (node_id meta))
                (node_offset meta) st) as [out st'].
    cbn [fst] in E. subst out. now eexists _, _.
Qed.

Lemma renderEntries_offline P now flag file sorted :
  (forall k f, fetchFails (requestUrl P k f)) ->
  forall content fetcher,
  exists out fetcher',
    renderEntries P now flag file sorted content fetcher = (Ret out, fetcher').
Proof.
  intros Hfail. induction sorted as [|c rest IH]; intros content fetcher;
    cbn [renderEntries].
  - now eexists _, _.
  - destruct (lookupFrame_offline P now flag file c fetcher Hfail) as (r & f' & ->).
    apply IH.
Qed.
End FetchFailure.

(** C8. When the structure request of a call of [getFrameInfo] fails (an
    error is thrown, or the status is not 200), the call returns normally; if
    it issued the request, it returns [null].  On a platform whose requests
    all fail, [saveCommentsToSingleFile] renders its document all the same:
    no exception leaves the rendering loop. *)
Theorem getFrameInfo_fetch_failure (P : Platform) :
  (forall now fk nodeId coordinates st,
      CacheSpec.fetchFails (requestUrl P (List.length (FrameInfoFetcher.requests st)) fk) ->
      let r := FrameInfoFetcher.getFrameInfo P now fk nodeId coordinates st in
      (exists result, fst r = Ret result)
      /\ (FrameInfoFetcher.requests (snd r) <> FrameInfoFetcher.requests st ->
          fst r = Ret None
          /\ FrameInfoFetcher.requests (snd r)
             = FrameInfoFetcher.requests st ++ [fk]))
  /\ ((forall k f, CacheSpec.fetchFails (requestUrl P k f)) ->
      forall now fetchFrameInfo fetcher file comments,
      exists content fetcher',
        Plugin.saveCommentsToSingleFile P now fetchFrameInfo fetcher file comments
        = (Ret content, fetcher')).
Proof.
  split.
  - intros now fk nodeId coordinates st Hfail. cbv zeta.
    destruct (getFrameInfo_fetch_failure_cases P now fk nodeId coordinates st Hfail)
      as [[r E] | [E1 E2]].
    + rewrite E. cbn [fst snd]. split; [now exists r|]. congruence.
    + split; [now exists None|]. intros _. now split.
  - intros Hfail now flag fetcher file comments.
    apply renderEntries_offline, Hfail.
Qed.

Lemma getFrameInfo_fetch_failure_witness :
  fst (FrameInfoFetcher.getFrameInfo Sample.offline 0 "K" "1:2" None Sample.cold)
  = Ret None
  /\ exists content fetcher',
      Plugin.saveCommentsToSingleFile Sample.offline 0 true (Some Sample.cold)
        Sample.designFile Sample.comments = (Ret content, fetcher').
Proof.
  destruct (getFrameInfo_fetch_failure Sample.offline) as [H1 H2]. split.
  - apply (H1 0%Z "K" "1:2" None Sample.cold I). cbn. discriminate.
  - apply H2. intros k f. cbn. destruct (Nat.even k); [exact I|discriminate].
Defined.

(** * Further properties *)

(** ** Geometry *)

(** X1. The four edges of a box belong to it: every corner of a box of
    non-negative width and height is within its bounds. *)
Theorem isPointInBounds_corners (bx by_ w h : Q) :
  (0 <= w)%Q -> (0 <= h)%Q ->
  let b := TreeSpec.fullBox bx by_ w h in
  FrameInfoFetcher.isPointInBounds bx by_ b = true
  /\ FrameInfoFetcher.isPointInBounds (bx + w) by_ b = true
  /\ FrameInfoFetcher.isPointInBounds bx (by_ + h) b = true
  /\ FrameInfoFetcher.isPointInBounds (bx + w) (by_ + h) b = true.
Proof.
  intros Hw Hh. cbv zeta. unfold FrameInfoFetcher.isPointInBounds, TreeSpec.fullBox.
  cbn [box_x box_y box_width box_height Num.ge Num.le Num.add].
  repeat split; rewrite !andb_true_iff; repeat split;
    apply Qle_bool_iff; lra.
Qed.

Lemma isPointInBounds_corners_witness :
  FrameInfoFetcher.isPointInBounds 10 25 (TreeSpec.fullBox 0 20 10 5) = true.
Proof.
  refine (proj1 (proj2 (isPointInBounds_corners 0 20 10 5 _ _))).
  - vm_compute. discriminate.
  - vm_compute. discriminate.
Defined.



(** ** The tree walker *)

Section Walker.
Import FrameInfoFetcher Spec TreeSpec.

Lemma preorder_nodes node :
  forall path, map fst (preorder node path) = nodes node.
Proof.
  induction node as [id type name box children IH] using Node_tree_ind.
  intros path. cbn [preorder nodes map fst]. f_equal.
  generalize (path ++ [mkNode id type name box children]) as currentPath.
  intros currentPath.
  induction IH as [|child rest Hchild _ IHrest]; [reflexivity|].
  rewrite map_app, Hchild, IHrest. reflexivity.
Qed.

Lemma preorder_paths node :
  forall path c,
    In c (preorder node path) ->
    (exists pre, snd c = pre ++ [fst c]) /\ (exists rest, snd c = path ++ node :: rest).
Proof.
  induction node as [id type name box children IH] using Node_tree_ind.
  intros path c. cbn [preorder].
  generalize (mkNode id type name box children) as node. intros node.
  intros [<- | Hin].
  - cbn [fst snd]. split; [now exists path|now exists []].
  - revert Hin. generalize (eq_refl (path ++ [node])).
    generalize (path ++ [node]) at 1 3 as currentPath. intros currentPath Hcur.
    induction IH as [|child rest Hchild _ IHrest]; [intros []|].
    intros Hin. apply in_app_or in Hin as [Hin | Hin]; [|now apply IHrest].
    destruct (Hchild currentPath c Hin) as [Hpre [tl Htl]]. split; [assumption|].
    exists (child :: tl). rewrite Htl, Hcur, <- app_assoc. reflexivity.
Qed.

Lemma fold_left_count {A : Type} (l : list A) (k : nat) :
  fold_left (fun k _ => S k) l k = (k + List.length l)%nat.
Proof.
  revert k. induction l as [|a l IH]; intros k; cbn [fold_left List.length]; [lia|].
  rewrite IH. lia.
Qed.

Lemma fold_left_collect {A B : Type} (l acc : list (A * B)) :
  fold_left (fun acc c => acc ++ [(fst c, snd c)]) l acc = acc ++ l.
Proof.
  revert acc. induction l as [|[a b] l IH]; intros acc; cbn [fold_left fst snd];
    [now rewrite app_nil_r|].
  rewrite IH, <- app_assoc. reflexivity.
Qed.
End Walker.

(** X3. [traverseNodes] calls back once for every node of the tree, a node
    before its children and the children in their order; the path it hands
    over with a node starts with the path it was given followed by the node
    it was started on, and ends with the node of the call. *)
Theorem traverseNodes_visits (node : Node) (path : list Node) :
  FrameInfoFetcher.traverseNodes node (fun n p acc => acc ++ [(n, p)]) path []
  = Spec.preorder node path
  /\ map fst (Spec.preorder node path) = TreeSpec.nodes node
  /\ FrameInfoFetcher.traverseNodes node (fun _ _ k => S k) path 0%nat
     = List.length (TreeSpec.nodes node)
  /\ forall c, In c (Spec.preorder node path) ->
               (exists pre, snd c = pre ++ [fst c])
               /\ (exists rest, snd c = path ++ node :: rest).
Proof.
  split; [|split; [|split]].
  - rewrite traverseNodes_preorder. apply (fold_left_collect _ []).
  - apply preorder_nodes.
  - rewrite traverseNodes_preorder, fold_left_count, <- (preorder_nodes node path).
    now rewrite length_map.
  - apply preorder_paths.
Qed.

(** ** The frame information of a path *)

Section FramePath.
Import FrameInfoFetcher Spec TreeSpec.

Lemma concat_snoc (sep : string) (l : list string) (x : string) :
  exists prefix, String.concat sep (l ++ [x]) = (prefix ++ x)%string.
Proof.
  induction l as [|a l [p IH]]; [now exists ""|].
  exists (a ++ sep ++ p)%string.
  change ((a :: l) ++ [x]) with (a :: (l ++ [x])).
  destruct (l ++ [x]) as [|b t] eqn:E; [now destruct l|].
  change (String.concat sep (a :: b :: t))
    with (a ++ sep ++ String.concat sep (b :: t))%string.
  rewrite IH, !append_assoc. reflexivity.
Qed.

Lemma drop_snoc {A : Type} (n : nat) (pre : list A) (x : A) :
  drop n (pre ++ [x]) = [] \/ exists l, drop n (pre ++ [x]) = l ++ [x].
Proof.
  destruct (Nat.le_gt_cases n (List.length pre)) as [Hle | Hgt].
  - right. exists (drop n pre). now apply drop_app_le.
  - left. apply drop_ge. rewrite length_app. cbn. lia.
Qed.

Lemma buildFrameInfoFromPath_suffix node pre :
  endsWith (fullPath (buildFrameInfoFromPath node (pre ++ [node]))) (NodeF.name node).
Proof.
  unfold buildFrameInfoFromPath. cbn [fullPath].
  set (framePathNodes :=
         match findIndex isCanvas (pre ++ [node]) with
         | Some i => drop (S i) (pre ++ [node])
         | None => pre ++ [node]
         end).
  assert (H : framePathNodes = [] \/ exists l, framePathNodes = l ++ [node]).
  { subst framePathNodes. destruct (findIndex isCanvas (pre ++ [node])) as [i|].
    - apply drop_snoc.
    - right. now exists pre. }
  destruct H as [-> | [l ->]].
  - now exists "".
  - rewrite map_app. cbn [map].
    destruct (concat_snoc " > " (map NodeF.name l) (NodeF.name node)) as [p ->].
    unfold orElse. destruct (p ++ NodeF.name node =? "")%string.
    + now exists "".
    + now exists p.
Qed.
End FramePath.

(** X4. For a path that ends with the node, the full path that
    [buildFrameInfoFromPath] returns ends with the name of the node, and the
    identifier and frame name returned are those of the node. *)
Theorem buildFrameInfoFromPath_ends_with_name (node : Node) (pre : list Node) :
  let frameInfo := FrameInfoFetcher.buildFrameInfoFromPath node (pre ++ [node]) in
  TreeSpec.endsWith (fullPath frameInfo) (frameName frameInfo)
  /\ nodeId frameInfo = NodeF.id node
  /\ frameName frameInfo = NodeF.name node.
Proof.
  cbv zeta. split; [|split; reflexivity].
  apply buildFrameInfoFromPath_suffix.
Qed.



(** ** The search by identifier *)

Section FindNode.
Import FrameInfoFetcher Spec TreeSpec.

Lemma findNode_occursIn nodeId node :
  forall currentPath, findNode nodeId node currentPath = true <-> occursIn nodeId node.
Proof.
  induction node as [id type name box children IH] using Node_tree_ind.
  intros currentPath. unfold occursIn. cbn [findNode nodes NodeF.id].
  destruct (String.eqb_spec id nodeId) as [-> | Hne].
  - split; [|reflexivity]. intros _. eexists. split; [now left|reflexivity].
  - set (below := (fix each (cs : list Node) : list Node :=
                     match cs with
                     | [] => []
                     | child :: rest => nodes child ++ each rest
                     end) children).
    transitivity (exists n, In n below /\ NodeF.id n = nodeId).
    + subst below.
      generalize (currentPath ++ [mkNode id type name box children]) as path.
      intros path.
      induction IH as [|child rest Hchild _ IHrest].
      * split; [discriminate|]. now intros (n & [] & _).
      * destruct (findNode nodeId child path) eqn:F.
        -- split; [|reflexivity]. intros _.
           apply Hchild in F as (n & Hn & Hid). exists n.
           split; [apply in_or_app; now left|assumption].
        -- rewrite IHrest. split.
           ++ intros (n & Hn & Hid). exists n.
              split; [apply in_or_app; now right|assumption].
           ++ intros (n & Hn & Hid). apply in_app_or in Hn as [Hn | Hn].
              ** assert (Hocc : occursIn nodeId child) by now exists n.
                 apply (Hchild path) in Hocc. congruence.
              ** now exists n.
    + split.
      * intros (n & Hn & Hid). exists n. split; [now right|assumption].
      * intros (n & [<- | Hn] & Hid); [cbn in Hid; congruence|now exists n].
Qed.

Lemma searchPages_cases nodeId pages s :
  (exists before page after,
      pages = before ++ page :: after
      /\ isCanvas page = true /\ occursIn nodeId page
      /\ Forall (fun q => isCanvas q = true -> ~ occursIn nodeId q) before
      /\ searchPages nodeId pages s = mkSearch (page :: path s) true (NodeF.name page))
  \/ (Forall (fun q => isCanvas q = true -> ~ occursIn nodeId q) pages
      /\ path (searchPages nodeId pages s) = path s
      /\ frameFound (searchPages nodeId pages s) = frameFound s).
Proof.
  revert s. induction pages as [|page rest IH]; intros s.
  - right. repeat split. constructor.
  - cbn [searchPages]. destruct (isCanvas page) eqn:Hc.
    + destruct (findNode nodeId page [page]) eqn:F.
      * left. exists [], page, rest. apply findNode_occursIn in F.
        repeat split; try assumption. constructor.
      * assert (Hno : ~ occursIn nodeId page).
        { intros Hocc. apply (findNode_occursIn nodeId page [page]) in Hocc. congruence. }
        destruct (IH (mkSearch (path s) (frameFound s) (NodeF.name page)))
          as [(before & pg & after & -> & Hpg & Hocc & Hbefore & ->) | (Hall & Hp & Hf)].
        -- left. exists (page :: before), pg, after.
           repeat split; try assumption. constructor; [now intros _|assumption].
        -- right. repeat split; try assumption. constructor; [now intros _|assumption].
    + destruct (IH s)
        as [(before & pg & after & -> & Hpg & Hocc & Hbefore & ->) | (Hall & Hp & Hf)].
      * left. exists (page :: before), pg, after.
        repeat split; try assumption. constructor; [congruence|assumption].
      * right. repeat split; try assumption. constructor; [congruence|assumption].
Qed.
End FindNode.

(** X6. [findFrameInfo] finds an identifier exactly when it occurs in the
    tree of a page (a [CANVAS] child of the document); the page name returned
    is that of the first such page, and the container name and full path are
    ["Root"].  The document itself and nodes outside the pages are not
    found. *)
Theorem findFrameInfo_found_iff (nodeId : string) (fileData : FileData)
    (frameInfo : FrameInfo) :
  FrameInfoFetcher.findFrameInfo nodeId fileData = Some frameInfo
  <-> exists doc before page after,
      document fileData = Some doc
      /\ NodeF.children doc = before ++ page :: after
      /\ FrameInfoFetcher.isCanvas page = true
      /\ TreeSpec.occursIn nodeId page
      /\ Forall (fun q => FrameInfoFetcher.isCanvas q = true ->
                          ~ TreeSpec.occursIn nodeId q) before
      /\ frameInfo = mkFrameInfo nodeId "Root" (NodeF.name page) "Root".
Proof.
  unfold FrameInfoFetcher.findFrameInfo.
  destruct (document fileData) as [doc|].
  - destruct (searchPages_cases nodeId (NodeF.children doc)
                (FrameInfoFetcher.mkSearch [] false ""))
      as [(before & page & after & E & Hc & Hocc & Hbefore & ->) | (Hall & Hp & Hf)].
    + cbn [FrameInfoFetcher.frameFound FrameInfoFetcher.path negb
             FrameInfoFetcher.searchPageName List.filter].
      rewrite (isCanvas_not_frame page Hc). split.
      * intros [= <-]. exists doc, before, page, after. now repeat split.
      * intros (doc' & before' & page' & after' & [= <-] & E' & Hc' & Hocc' & Hb' & ->).
        rewrite E in E'.
        destruct (app_cons_split _ _ _ _ _ _ E') as [(_ & <- & _) | [Hin | Hin]].
        -- reflexivity.
        -- exfalso. rewrite List.Forall_forall in Hb'. now apply (Hb' _ Hin).
        -- exfalso. rewrite List.Forall_forall in Hbefore. now apply (Hbefore _ Hin).
    + rewrite Hf. cbn [FrameInfoFetcher.frameFound negb]. split; [discriminate|].
      intros (doc' & before' & page' & after' & [= <-] & E' & Hc' & Hocc' & _).
      exfalso. rewrite List.Forall_forall in Hall.
      apply (Hall page'); [rewrite E'; apply in_elt|assumption|assumption].
  - cbn. split; [discriminate|]. now intros (doc & _ & _ & _ & [=] & _).
Qed.

(** ** Storing and reading resolutions *)

Section Store.
Import FrameInfoFetcher CacheSpec.
#[local] Open Scope Z_scope.

Lemma cacheFrameInfo_entry now fk key info st :
  cache (cacheFrameInfo now fk key info st) !! fk
  = Some (setFrame key info
            (match cache st !! fk with
             | Some c => c
             | None => mkFrameCache fk now ∅ None
             end)).
Proof. unfold cacheFrameInfo. cbn [cache]. apply lookup_insert_eq. Qed.

Lemma cacheFrameInfo_other now fk key info st fk' :
  fk' <> fk -> cache (cacheFrameInfo now fk key info st) !! fk' = cache st !! fk'.
Proof. intros H. unfold cacheFrameInfo. cbn [cache]. now apply lookup_insert_ne. Qed.

Lemma getCachedFrameInfo_other now fk key st fk' :
  fk' <> fk ->
  cache (snd (getCachedFrameInfo now fk key st)) !! fk' = cache st !! fk'.
Proof.
  intros H. unfold getCachedFrameInfo. destruct (cache st !! fk) as [e|]; [|reflexivity].
  destruct (now - lastUpdated e >? DAY); [|reflexivity].
  cbn [snd cache]. now apply lookup_delete_ne.
Qed.

Lemma fetchFileStructure_other P now fk st fk' :
  fk' <> fk ->
  cache (snd (fetchFileStructure P now fk st)) !! fk' = cache st !! fk'.
Proof.
  intros H. unfold fetchFileStructure.
  destruct (requestUrl P (List.length (requests st)) fk) as [|status data];
    [reflexivity|].
  destruct (negb (status =? 200)); [reflexivity|]. cbn [snd cache].
  destruct (cache st !! fk); [reflexivity|]. now apply lookup_insert_ne.
Qed.

Lemma resolveBy_other find P now fk key st fk' :
  fk' <> fk ->
  cache (snd (resolveBy find P now fk key st)) !! fk' = cache st !! fk'.
Proof.
  intros H. unfold resolveBy.
  pose proof (getCachedFrameInfo_other now fk key st fk' H) as H1.
  destruct (getCachedFrameInfo now fk key st) as [[info|] st1]; [exact H1|].
  cbn [snd] in H1.
  pose proof (fetchFileStructure_other P now fk st1 fk' H) as H2.
  destruct (fetchFileStructure P now fk st1) as [[data|] st2]; cbn [snd] in *;
    [|congruence].
  destruct (find data) as [[info|]|err]; cbn [snd]; try congruence.
  rewrite cacheFrameInfo_other by assumption. congruence.
Qed.
End Store.

(** X7. Reading back what [cacheFrameInfo] stored: as long as the entry of
    the file is valid at the time of the read, the read returns the stored
    frame information.  Storing leaves the other resolutions of the file, the
    entries of other files, the time stamp of an existing entry and the
    request log as they were. *)
Theorem cacheFrameInfo_read_back (now now2 : Z) (fk key : string)
    (frameInfo : FrameInfo) (st : FrameInfoFetcher.Fetcher) :
  (forall e, FrameInfoFetcher.cache st !! fk = Some e ->
             (now2 - lastUpdated e <= FrameInfoFetcher.DAY)%Z) ->
  (FrameInfoFetcher.cache st !! fk = None -> (now2 - now <= FrameInfoFetcher.DAY)%Z) ->
  let st' := FrameInfoFetcher.cacheFrameInfo now fk key frameInfo st in
  FrameInfoFetcher.getCachedFrameInfo now2 fk key st' = (Some frameInfo, st')
  /\ (forall key', key' <> key ->
                   fst (FrameInfoFetcher.getCachedFrameInfo now2 fk key' st')
                   = fst (FrameInfoFetcher.getCachedFrameInfo now2 fk key' st))
  /\ (forall fk', fk' <> fk ->
                  FrameInfoFetcher.cache st' !! fk' = FrameInfoFetcher.cache st !! fk')
  /\ (forall e, FrameInfoFetcher.cache st !! fk = Some e ->
                lastUpdated <$> FrameInfoFetcher.cache st' !! fk = Some (lastUpdated e))
  /\ FrameInfoFetcher.requests st' = FrameInfoFetcher.requests st.
Proof.
  intros Hvalid Hnew. cbv zeta.
  pose proof (cacheFrameInfo_entry now fk key frameInfo st) as He.
  assert (Hage : forall k,
             (now2 - lastUpdated
                       (setFrame k frameInfo
                          (match FrameInfoFetcher.cache st !! fk with
                           | Some c => c
                           | None => mkFrameCache fk now ∅ None
                           end)) <= FrameInfoFetcher.DAY)%Z).
  { intros k. unfold setFrame. cbn [lastUpdated].
    destruct (FrameInfoFetcher.cache st !! fk) as [e|] eqn:E.
    - now apply Hvalid.
    - now apply Hnew. }
  split; [|split; [|split; [|split]]].
  - rewrite (getCachedFrameInfo_valid now2 fk key _ _ He (Hage key)).
    unfold setFrame. cbn [frameMap]. now rewrite lookup_insert_eq.
  - intros key' Hne.
    rewrite (getCachedFrameInfo_valid now2 fk key' _ _ He (Hage key)).
    unfold setFrame. cbn [frameMap fst]. rewrite lookup_insert_ne by congruence.
    destruct (FrameInfoFetcher.cache st !! fk) as [e|] eqn:E.
    + now rewrite (getCachedFrameInfo_valid now2 fk key' st e E (Hvalid e eq_refl)).
    + now rewrite (getCachedFrameInfo_absent now2 fk key' st E).
  - intros fk' Hne. now apply cacheFrameInfo_other.
  - intros e E. rewrite He, E. reflexivity.
  - reflexivity.
Qed.

Lemma cacheFrameInfo_read_back_witness :
  FrameInfoFetcher.getCachedFrameInfo 2000 "K" "9:9"
    (FrameInfoFetcher.cacheFrameInfo 1000 "K" "9:9" Sample.rootInfo Sample.warm)
  = (Some Sample.rootInfo,
     FrameInfoFetcher.cacheFrameInfo 1000 "K" "9:9" Sample.rootInfo Sample.warm).
Proof.
  refine (proj1 (cacheFrameInfo_read_back 1000 2000 "K" "9:9" Sample.rootInfo
                   Sample.warm _ _)).
  - intros e He. change (Some Sample.entry = Some e) in He.
    injection He as <-. vm_compute. discriminate.
  - intros He. vm_compute. discriminate.
Defined.

(** ** Requests, misses and other files *)

Section Accounting.
Import FrameInfoFetcher CacheSpec.
#[local] Open Scope Z_scope.

Lemma resolvable_resolveBy P fk nodeId coordinates :
  resolvable nodeId coordinates ->
  exists find, forall now st,
      getFrameInfo P now fk nodeId coordinates st
      = resolveBy find P now fk (resolutionKey P nodeId coordinates) st.
Proof.
  intros Hres. unfold getFrameInfo, resolutionKey.
  destruct (isRealNodeId nodeId) eqn:Hid.
  - eexists. intros now st. apply getFrameInfoByNodeId_resolveBy.
  - destruct Hres as [Hreal | (x & y & ->)]; [congruence|].
    cbn [coord_x coord_y]. eexists. intros now st.
    apply getFrameInfoByCoordinates_resolveBy.
Qed.

Lemma not_resolvable_null P now fk nodeId coordinates st :
  ~ resolvable nodeId coordinates ->
  getFrameInfo P now fk nodeId coordinates st = (Ret None, st).
Proof.
  intros Hno. unfold getFrameInfo.
  destruct (isRealNodeId nodeId) eqn:Hid; [exfalso; apply Hno; now left|].
  destruct coordinates as [[[x|] [y|]]|]; cbn [coord_x coord_y]; try reflexivity.
  exfalso. apply Hno. right. now exists x, y.
Qed.

Lemma resolveBy_hit find P now fk key st info :
  fst (getCachedFrameInfo now fk key st) = Some info ->
  resolveBy find P now fk key st = (Ret (Some info), st).
Proof.
  intros H. unfold resolveBy.
  destruct (getCachedFrameInfo_cases now fk key st)
    as [(info' & Hc & _) | (st1 & Hc & _)]; rewrite Hc in *; cbn [fst] in H.
  - now injection H as ->.
  - discriminate.
Qed.

Lemma resolveBy_miss find P now fk key st :
  fst (getCachedFrameInfo now fk key st) = None ->
  requests (snd (resolveBy find P now fk key st)) = requests st ++ [fk].
Proof.
  intros H. unfold resolveBy.
  destruct (getCachedFrameInfo_cases now fk key st)
    as [(info' & Hc & _) | (st1 & Hc & Hreq & _)]; rewrite Hc in *; cbn [fst] in H;
    [discriminate|].
  pose proof (fetchFileStructure_requests P now fk st1) as Hf. rewrite Hreq in Hf.
  destruct (fetchFileStructure P now fk st1) as [[data|] st2]; [|exact Hf].
  destruct (find data) as [[info|]|err]; exact Hf.
Qed.

Lemma getCachedFrameInfo_fst_cache now fk key st st' :
  cache st' = cache st ->
  fst (getCachedFrameInfo now fk key st') = fst (getCachedFrameInfo now fk key st).
Proof.
  intros H. unfold getCachedFrameInfo. rewrite H.
  destruct (cache st !! fk) as [e|]; [|reflexivity].
  destruct (now - lastUpdated e >? DAY); reflexivity.
Qed.

Lemma fetchFileStructure_present P now fk st e :
  cache st !! fk = Some e -> cache (snd (fetchFileStructure P now fk st)) = cache st.
Proof.
  intros E. unfold fetchFileStructure. rewrite E.
  destruct (requestUrl P (List.length (requests st)) fk) as [|status data];
    [reflexivity|].
  destruct (negb (status =? 200)); reflexivity.
Qed.

Lemma fetchFileStructure_absent_reads P now fk key st :
  cache st !! fk = None ->
  fst (getCachedFrameInfo now fk key (snd (fetchFileStructure P now fk st))) = None.
Proof.
  intros E. unfold fetchFileStructure. rewrite E.
  assert (Hday : 0 <= DAY) by (unfold DAY; lia).
  destruct (requestUrl P (List.length (requests st)) fk) as [|status data].
  - cbn [snd]. now rewrite getCachedFrameInfo_absent.
  - destruct (negb (status =? 200)); cbn [snd].
    + now rewrite getCachedFrameInfo_absent.
    + rewrite (getCachedFrameInfo_valid now fk key _ (mkFrameCache fk now ∅ (Some data)));
        [apply lookup_empty|apply lookup_insert_eq|cbn [lastUpdated]; lia].
Qed.

Lemma resolveBy_null_state find P now fk key st st1 :
  getCachedFrameInfo now fk key st = (None, st1) ->
  fst (resolveBy find P now fk key st) = Ret None ->
  snd (resolveBy find P now fk key st) = snd (fetchFileStructure P now fk st1).
Proof.
  intros Hc. unfold resolveBy. rewrite Hc.
  destruct (fetchFileStructure P now fk st1) as [[data|] st2]; [|reflexivity].
  destruct (find data) as [[info|]|err]; cbn [fst snd]; try discriminate. reflexivity.
Qed.

(** After a call that returns [null], every key of the file reads as it did
    before the call. *)
Lemma resolveBy_null_reads find P now fk key st :
  fst (resolveBy find P now fk key st) = Ret None ->
  forall key',
    fst (getCachedFrameInfo now fk key' (snd (resolveBy find P now fk key st)))
    = fst (getCachedFrameInfo now fk key' st).
Proof.
  intros Hnull key'.
  destruct (cache st !! fk) as [e|] eqn:E.
  - destruct (Z.le_gt_cases (now - lastUpdated e) DAY) as [Hok | Hold].
    + pose proof (getCachedFrameInfo_valid now fk key st e E Hok) as Hc.
      destruct (frameMap e !! key) as [info|] eqn:F.
      * unfold resolveBy in Hnull. rewrite Hc in Hnull. discriminate.
      * rewrite (resolveBy_null_state find P now fk key st st Hc Hnull).
        apply getCachedFrameInfo_fst_cache.
        now apply fetchFileStructure_present with e.
    + pose proof (getCachedFrameInfo_expired now fk key st e E ltac:(lia)) as Hc.
      rewrite (resolveBy_null_state find P now fk key st _ Hc Hnull).
      rewrite fetchFileStructure_absent_reads by apply lookup_delete_eq.
      now rewrite (getCachedFrameInfo_expired now fk key' st e E ltac:(lia)).
  - pose proof (getCachedFrameInfo_absent now fk key st E) as Hc.
    rewrite (resolveBy_null_state find P now fk key st st Hc Hnull).
    rewrite fetchFileStructure_absent_reads by assumption.
    now rewrite getCachedFrameInfo_absent.
Qed.
End Accounting.

(** X8. A call of [getFrameInfo] that has an anchor to resolve either finds
    the resolution in a valid entry, and then returns it without touching
    the fetcher, or issues exactly one structure request, also when the
    entry of the file holds the structure already.  A call with nothing to
    resolve returns [null] and leaves the fetcher as it is. *)
Theorem getFrameInfo_request_count (P : Platform) (now : Z) (fk nodeId : string)
    (coordinates : option Coordinates) (st : FrameInfoFetcher.Fetcher) :
  let r := FrameInfoFetcher.getFrameInfo P now fk nodeId coordinates st in
  let cached :=
    fst (FrameInfoFetcher.getCachedFrameInfo now fk
           (CacheSpec.resolutionKey P nodeId coordinates) st) in
  (CacheSpec.resolvable nodeId coordinates ->
   (forall frameInfo, cached = Some frameInfo -> r = (Ret (Some frameInfo), st))
   /\ (cached = None ->
       FrameInfoFetcher.requests (snd r) = FrameInfoFetcher.requests st ++ [fk]))
  /\ (~ CacheSpec.resolvable nodeId coordinates -> r = (Ret None, st)).
Proof.
  cbv zeta. split.
  - intros Hres. destruct (resolvable_resolveBy P fk nodeId coordinates Hres) as [find H].
    rewrite H. split.
    + intros frameInfo. apply resolveBy_hit.
    + apply resolveBy_miss.
  - apply not_resolvable_null.
Qed.

Lemma getFrameInfo_request_count_witness :
  FrameInfoFetcher.requests
    (snd (FrameInfoFetcher.getFrameInfo Sample.platform 1000 "K" "7:7" None Sample.warm))
  = ["K"; "K"].
Proof.
  refine (proj2 (proj1 (getFrameInfo_request_count Sample.platform 1000 "K" "7:7"
                          None Sample.warm) _) _).
  - left. reflexivity.
  - reflexivity.
Defined.

(** X9. After [clearCache] every read finds nothing, and a call of
    [getFrameInfo] that has an anchor to resolve issues exactly one structure
    request. *)
Theorem clearCache_refetch (P : Platform) (now : Z) (fk nodeId : string)
    (coordinates : option Coordinates) (st : FrameInfoFetcher.Fetcher) :
  CacheSpec.resolvable nodeId coordinates ->
  (forall fk' key,
      FrameInfoFetcher.getCachedFrameInfo now fk' key (FrameInfoFetcher.clearCache st)
      = (None, FrameInfoFetcher.clearCache st))
  /\ FrameInfoFetcher.requests
       (snd (FrameInfoFetcher.getFrameInfo P now fk nodeId coordinates
               (FrameInfoFetcher.clearCache st)))
     = FrameInfoFetcher.requests st ++ [fk].
Proof.
  intros Hres.
  assert (Hread : forall fk' key,
             FrameInfoFetcher.getCachedFrameInfo now fk' key (FrameInfoFetcher.clearCache st)
             = (None, FrameInfoFetcher.clearCache st)).
  { intros fk' key. apply getCachedFrameInfo_absent. apply lookup_empty. }
  split; [exact Hread|].
  destruct (resolvable_resolveBy P fk nodeId coordinates Hres) as [find H].
  rewrite H, resolveBy_miss; [reflexivity|]. now rewrite Hread.
Qed.

Lemma clearCache_refetch_witness :
  FrameInfoFetcher.requests
    (snd (FrameInfoFetcher.getFrameInfo Sample.platform 1000 "K" "1:2" None
            (FrameInfoFetcher.clearCache Sample.warm)))
  = ["K"; "K"].
Proof.
  refine (proj2 (clearCache_refetch Sample.platform 1000 "K" "1:2" None Sample.warm _)).
  left. reflexivity.
Defined.

(** X10. A result of [null] is not remembered: after a call of
    [getFrameInfo] that returns [null], every key of the file reads as before
    the call, so the same call made again at once issues a structure request
    again. *)
Theorem getFrameInfo_null_not_cached (P : Platform) (now : Z) (fk nodeId : string)
    (coordinates : option Coordinates) (st : FrameInfoFetcher.Fetcher) :
  CacheSpec.resolvable nodeId coordinates ->
  fst (FrameInfoFetcher.getFrameInfo P now fk nodeId coordinates st) = Ret None ->
  (forall key,
      fst (FrameInfoFetcher.getCachedFrameInfo now fk key
             (snd (FrameInfoFetcher.getFrameInfo P now fk nodeId coordinates st)))
      = fst (FrameInfoFetcher.getCachedFrameInfo now fk key st))
  /\ FrameInfoFetcher.requests
       (snd (FrameInfoFetcher.getFrameInfo P now fk nodeId coordinates
               (snd (FrameInfoFetcher.getFrameInfo P now fk nodeId coordinates st))))
     = FrameInfoFetcher.requests st ++ [fk; fk].
Proof.
  intros Hres.
  destruct (resolvable_resolveBy P fk nodeId coordinates Hres) as [find H].
  rewrite !H. intros Hnull.
  pose proof (resolveBy_null_reads find P now fk _ st Hnull) as Hreads.
  split; [exact Hreads|].
  assert (Hmiss : fst (FrameInfoFetcher.getCachedFrameInfo now fk
                         (CacheSpec.resolutionKey P nodeId coordinates) st) = None).
  { destruct (fst (FrameInfoFetcher.getCachedFrameInfo now fk
                     (CacheSpec.resolutionKey P nodeId coordinates) st)) as [i|] eqn:E;
      [|reflexivity].
    rewrite (resolveBy_hit find P now fk _ st i E) in Hnull. discriminate. }
  rewrite resolveBy_miss by (rewrite Hreads; exact Hmiss).
  rewrite resolveBy_miss by exact Hmiss. now rewrite <- app_assoc.
Qed.

Lemma getFrameInfo_null_not_cached_witness :
  FrameInfoFetcher.requests
    (snd (FrameInfoFetcher.getFrameInfo Sample.platform 1000 "K" "7:7" None
            (snd (FrameInfoFetcher.getFrameInfo Sample.platform 1000 "K" "7:7" None
                    Sample.cold))))
  = ["K"; "K"].
Proof.
  refine (proj2 (getFrameInfo_null_not_cached Sample.platform 1000 "K" "7:7" None
                   Sample.cold _ _)).
  - left. reflexivity.
  - reflexivity.
Defined.

(** X11. A call of [getFrameInfo] for a file reads and writes the entry of
    that file only: the entries of all other files stay as they are. *)
Theorem getFrameInfo_other_files (P : Platform) (now : Z) (fk nodeId : string)
    (coordinates : option Coordinates) (st : FrameInfoFetcher.Fetcher)
    (other : string) :
  other <> fk ->
  FrameInfoFetcher.cache
    (snd (FrameInfoFetcher.getFrameInfo P now fk nodeId coordinates st)) !! other
  = FrameInfoFetcher.cache st !! other.
Proof.
  intros Hne.
  destruct (getFrameInfo_route P fk nodeId coordinates) as [(find & H) | H]; rewrite H.
  - now apply resolveBy_other.
  - reflexivity.
Qed.

Lemma getFrameInfo_other_files_witness :
  FrameInfoFetcher.cache
    (snd (FrameInfoFetcher.getFrameInfo Sample.platform (FrameInfoFetcher.DAY + 7)
            "F2" "1:2" None Sample.warm)) !! "K"
  = Some Sample.entry.
Proof.
  apply (getFrameInfo_other_files Sample.platform (FrameInfoFetcher.DAY + 7) "F2" "1:2"
           None Sample.warm "K").
  discriminate.
Defined.

(** ** The JavaScript variant *)

Section Detector.
Import FrameInfoFetcher CacheSpec Spec.
#[local] Open Scope Z_scope.

Lemma detector_fetch_fresh P now fk st status data :
  requestUrl P (List.length (requests st)) fk = HttpResponse status data ->
  CoordinateBasedFrameDetector.ok status = true ->
  (forall e, cache st !! fk = Some e -> DAY <= now - lastUpdated e) ->
  CoordinateBasedFrameDetector.fetchFileStructure P now fk st
  = (Some data,
     mkFetcher (<[fk := mkFrameCache fk now ∅ (Some data)]> (cache st))
       (requests st ++ [fk])).
Proof.
  intros Hresp Hok Hexp. unfold CoordinateBasedFrameDetector.fetchFileStructure.
  rewrite Hresp, Hok. cbn [negb].
  destruct (cache st !! fk) as [e|]; [|reflexivity].
  destruct (Z.ltb_spec (now - lastUpdated e) DAY) as [Hlt|_]; [|reflexivity].
  specialize (Hexp e eq_refl). lia.
Qed.

End Detector.

(** X12. In the JavaScript variant a fetched structure is kept and used
    again: a second [fetchFileStructure] less than 24 hours after a successful
    one returns the same structure without a request; 24 hours or more after
    it, it requests again. *)
Theorem detector_structure_reused (P : Platform) (now now2 : Z) (fk : string)
    (st : FrameInfoFetcher.Fetcher) (status : Z) (data : FileData) :
  requestUrl P (List.length (FrameInfoFetcher.requests st)) fk
  = HttpResponse status data ->
  CoordinateBasedFrameDetector.ok status = true ->
  (forall e, FrameInfoFetcher.cache st !! fk = Some e ->
             (FrameInfoFetcher.DAY <= now - lastUpdated e)%Z) ->
  let st1 := snd (CoordinateBasedFrameDetector.fetchFileStructure P now fk st) in
  ((now2 - now < FrameInfoFetcher.DAY)%Z ->
   CoordinateBasedFrameDetector.fetchFileStructure P now2 fk st1 = (Some data, st1))
  /\ ((FrameInfoFetcher.DAY <= now2 - now)%Z ->
      FrameInfoFetcher.requests
        (snd (CoordinateBasedFrameDetector.fetchFileStructure P now2 fk st1))
      = FrameInfoFetcher.requests st ++ [fk; fk]).
Proof.
  intros Hresp Hok Hexp. cbv zeta.
  rewrite (detector_fetch_fresh P now fk st status data Hresp Hok Hexp). cbn [snd].
  unfold CoordinateBasedFrameDetector.fetchFileStructure at 1 2.
  cbn [FrameInfoFetcher.cache FrameInfoFetcher.requests].
  rewrite lookup_insert_eq. cbn [lastUpdated fileStructure]. split; intros Hage.
  - destruct (Z.ltb_spec (now2 - now) FrameInfoFetcher.DAY); [reflexivity|lia].
  - destruct (Z.ltb_spec (now2 - now) FrameInfoFetcher.DAY); [lia|].
    destruct (requestUrl P (List.length (FrameInfoFetcher.requests st ++ [fk])) fk)
      as [|status2 data2]; cbn [snd FrameInfoFetcher.requests];
      [now rewrite <- app_assoc|].
    destruct (negb (CoordinateBasedFrameDetector.ok status2));
      cbn [snd FrameInfoFetcher.requests]; now rewrite <- app_assoc.
Qed.

Lemma detector_structure_reused_witness :
  let st1 :=
    snd (CoordinateBasedFrameDetector.fetchFileStructure Sample.platform 1000 "K"
           Sample.cold) in
  CoordinateBasedFrameDetector.fetchFileStructure Sample.platform 2000 "K" st1
  = (Some Sample.file, st1).
Proof.
  refine (proj1 (detector_structure_reused Sample.platform 1000 2000 "K" Sample.cold
                   200 Sample.file eq_refl eq_refl _) _).
  - intros e He. discriminate.
  - reflexivity.
Defined.

Section Variants.
Import FrameInfoFetcher CacheSpec Spec.
#[local] Open Scope Q_scope.

End Variants.


Section DetectorById.
Import FrameInfoFetcher Spec TreeSpec.

Lemma fold_noteMatch nodeId l s :
  fold_left (fun s c => CoordinateBasedFrameDetector.noteMatch nodeId (fst c) (snd c) s) l s
  = match rev (List.filter (hasId nodeId) l) with
    | c :: _ => CoordinateBasedFrameDetector.mkFound (Some (fst c)) (snd c)
    | [] => s
    end.
Proof.
  revert s. induction l as [|c l IH] using rev_ind; intros s; [reflexivity|].
  rewrite fold_left_app, List.filter_app, rev_app_distr. cbn [fold_left List.filter].
  unfold CoordinateBasedFrameDetector.noteMatch at 1. unfold hasId at 1.
  destruct (NodeF.id (fst c) =? nodeId)%string; cbn [rev app]; [reflexivity|].
  apply IH.
Qed.
End DetectorById.

(** X14. [getFrameInfoByNodeId] of the JavaScript variant searches the whole
    tree, the document node included, and returns the frame information of
    the last node in pre-order that has the identifier; it returns [null]
    exactly when no node of the tree has it. *)
Theorem detector_by_id_last_match (P : Platform) (now : Z) (fk nodeId : string)
    (st st1 : FrameInfoFetcher.Fetcher) (data : FileData) (root : Node) :
  CoordinateBasedFrameDetector.fetchFileStructure P now fk st = (Some data, st1) ->
  document data = Some root ->
  CoordinateBasedFrameDetector.getFrameInfoByNodeId P now fk nodeId st
  = (Ret (match rev (List.filter (TreeSpec.hasId nodeId) (Spec.preorder root [])) with
          | c :: _ => Some (CoordinateBasedFrameDetector.buildFrameInfo (fst c) (snd c))
          | [] => None
          end), st1)
  /\ (fst (CoordinateBasedFrameDetector.getFrameInfoByNodeId P now fk nodeId st)
      = Ret None
      <-> ~ TreeSpec.occursIn nodeId root).
Proof.
  intros Hfetch Hdoc.
  assert (Heq : CoordinateBasedFrameDetector.getFrameInfoByNodeId P now fk nodeId st
                = (Ret (match rev (List.filter (TreeSpec.hasId nodeId)
                                     (Spec.preorder root [])) with
                        | c :: _ =>
                            Some (CoordinateBasedFrameDetector.buildFrameInfo (fst c) (snd c))
                        | [] => None
                        end), st1)).
  { unfold CoordinateBasedFrameDetector.getFrameInfoByNodeId.
    rewrite Hfetch, Hdoc, traverseNodes_preorder, fold_noteMatch.
    destruct (rev (List.filter (TreeSpec.hasId nodeId) (Spec.preorder root [])));
      reflexivity. }
  split; [exact Heq|]. rewrite Heq. cbn [fst]. unfold TreeSpec.occursIn.
  rewrite <- (preorder_nodes root []).
  destruct (rev (List.filter (TreeSpec.hasId nodeId) (Spec.preorder root [])))
    as [|c l] eqn:E.
  - split; [|reflexivity]. intros _ (n & Hn & Hid).
    apply in_map_iff in Hn as (c & <- & Hc).
    assert (Hin : In c (rev (List.filter (TreeSpec.hasId nodeId) (Spec.preorder root [])))).
    { apply in_rev. rewrite rev_involutive. apply filter_In. split; [assumption|].
      unfold TreeSpec.hasId. now apply String.eqb_eq. }
    rewrite E in Hin. destruct Hin.
  - split; [discriminate|]. intros Hno. exfalso. apply Hno.
    assert (Hin : In c (List.filter (TreeSpec.hasId nodeId) (Spec.preorder root []))).
    { apply in_rev. rewrite E. now left. }
    apply filter_In in Hin as [Hin Hid]. exists (fst c). split.
    + now apply in_map.
    + unfold TreeSpec.hasId in Hid. now apply String.eqb_eq.
Qed.

Lemma detector_by_id_last_match_witness :
  fst (CoordinateBasedFrameDetector.getFrameInfoByNodeId Sample.platform 1000 "K" "0:0"
         Sample.cold)
  = Ret (Some (CoordinateBasedFrameDetector.mkDetectedFrame
                 (mkFrameInfo "0:0" "Document" "Unknown Page" "Document") None)).
Proof.
  rewrite (proj1 (detector_by_id_last_match Sample.platform 1000 "K" "0:0" Sample.cold
                    _ Sample.file Sample.doc eq_refl eq_refl)).
  reflexivity.
Defined.

(** X15. The JavaScript variant treats a coordinate of zero as missing:
    for the placeholder identifier and a point with [x = 0] or [y = 0] it
    returns [null] without any request, where [getFrameInfo] of [main.ts]
    goes on to resolve the point. *)
Theorem detector_zero_coordinate (P : Platform) (now : Z) (fk : string) (x y : Q)
    (st : FrameInfoFetcher.Fetcher) :
  (x == 0 \/ y == 0)%Q ->
  let coordinates := Some (mkCoordinates (Some x) (Some y)) in
  CoordinateBasedFrameDetector.getFrameInfoByCoordinates P now fk "0:1" coordinates st
  = (Ret None, st)
  /\ FrameInfoFetcher.getFrameInfo P now fk "0:1" coordinates st
     = FrameInfoFetcher.getFrameInfoByCoordinates P now fk x y st.
Proof.
  intros Hzero. cbv zeta. split; [|reflexivity].
  unfold CoordinateBasedFrameDetector.getFrameInfoByCoordinates.
  cbn [FrameInfoFetcher.isRealNodeId String.eqb Ascii.eqb Bool.eqb negb andb
         coord_x coord_y CoordinateBasedFrameDetector.truthyNumber].
  destruct Hzero as [H | H]; apply Qeq_bool_iff in H; rewrite H; cbn [negb andb];
    [reflexivity|].
  now destruct (negb (Qeq_bool x 0)).
Qed.

Lemma detector_zero_coordinate_witness :
  CoordinateBasedFrameDetector.getFrameInfoByCoordinates Sample.platform 1000 "K" "0:1"
    (Some (mkCoordinates (Some 0%Q) (Some 5%Q))) Sample.cold
  = (Ret None, Sample.cold).
Proof.
  refine (proj1 (detector_zero_coordinate Sample.platform 1000 "K" 0 5 Sample.cold _)).
  left. reflexivity.
Defined.

(** ** A structure without a document *)

(** X16. When the structure arrives without its [document], the resolution
    by identifier returns [null], whereas the resolution by coordinates
    throws a [TypeError] that [getFrameInfo] lets through; in both cases the
    cache entry of the file has been created by then. *)
Theorem getFrameInfo_missing_document (P : Platform) (now : Z) (fk nodeId : string)
    (x y : Q) (st : FrameInfoFetcher.Fetcher) :
  requestUrl P (List.length (FrameInfoFetcher.requests st)) fk
  = HttpResponse 200 (mkFileData None) ->
  FrameInfoFetcher.cache st !! fk = None ->
  FrameInfoFetcher.isRealNodeId nodeId = true ->
  let st' :=
    FrameInfoFetcher.mkFetcher
      (<[fk := mkFrameCache fk now ∅ (Some (mkFileData None))]>
         (FrameInfoFetcher.cache st))
      (FrameInfoFetcher.requests st ++ [fk]) in
  FrameInfoFetcher.getFrameInfo P now fk nodeId None st = (Ret None, st')
  /\ FrameInfoFetcher.getFrameInfo P now fk "0:1"
       (Some (mkCoordinates (Some x) (Some y))) st
     = (Throw "TypeError", st').
Proof.
  intros Hresp Habsent Hreal. cbv zeta. unfold FrameInfoFetcher.getFrameInfo.
  rewrite Hreal. cbn [FrameInfoFetcher.isRealNodeId String.eqb Ascii.eqb Bool.eqb
                        negb andb coord_x coord_y].
  unfold FrameInfoFetcher.getFrameInfoByNodeId, FrameInfoFetcher.getFrameInfoByCoordinates.
  rewrite !(getCachedFrameInfo_absent now fk _ st Habsent).
  rewrite (fetchFileStructure_success P now fk st _ Hresp), Habsent.
  split; reflexivity.
Qed.

Lemma getFrameInfo_missing_document_witness :
  fst (FrameInfoFetcher.getFrameInfo
         (mkPlatform (fun _ _ => HttpResponse 200 (mkFileData None)) (fun _ => "n")
            (fun _ => 0%Z) (fun s => s) "now" "now")
         1000 "K" "0:1" (Some (mkCoordinates (Some 5%Q) (Some 5%Q))) Sample.cold)
  = Throw "TypeError".
Proof.
  rewrite (proj2 (getFrameInfo_missing_document
                    (mkPlatform (fun _ _ => HttpResponse 200 (mkFileData None))
                       (fun _ => "n") (fun _ => 0%Z) (fun s => s) "now" "now")
                    1000 "K" "1:2" 5 5 Sample.cold eq_refl eq_refl eq_refl)).
  reflexivity.
Defined.

(** ** [TokenManager]: what [encrypt] accepts and returns *)

Section TokenManagerMore.
Import JS TokenManager Base64.
#[local] Open Scope N_scope.

Lemma lxor_lt_pow2 (n a b : N) : a < 2 ^ n -> b < 2 ^ n -> N.lxor a b < 2 ^ n.
Proof.
  intros Ha Hb. destruct (N.eq_dec (N.lxor a b) 0) as [-> | Hne]; [lia|].
  apply N.log2_lt_pow2; [lia|].
  eapply N.le_lt_trans; [apply N.log2_lxor|].
  assert (L : forall c, c < 2 ^ n -> c <> 0 -> N.log2 c < n).
  { intros c Hc Hc0. apply N.log2_lt_pow2; lia. }
  destruct (N.eq_dec a 0) as [-> | Ha0], (N.eq_dec b 0) as [-> | Hb0].
  - now rewrite N.lxor_0_l in Hne.
  - rewrite N.max_r by (cbn; lia). now apply L.
  - rewrite N.max_l by (cbn; lia). now apply L.
  - apply N.max_lub_lt; now apply L.
Qed.

Lemma xor_byte_iff c k :
  c < 65536 -> k < 128 -> (fromCharCode (N.lxor c k) < 256 <-> c < 256).
Proof.
  intros Hc Hk. unfold fromCharCode.
  rewrite N.mod_small by now apply lxor_code_unit. split; intros H.
  - replace c with (N.lxor (N.lxor c k) k)
      by now rewrite N.lxor_assoc, N.lxor_nilpotent, N.lxor_0_r.
    apply (lxor_lt_pow2 8); [exact H|]. cbn. lia.
  - apply (lxor_lt_pow2 8); [exact H|]. cbn. lia.
Qed.

Lemma xorLoop_bytes_iff text i :
  is_jsstring text ->
  (Forall (fun c => c < 256) (xorLoop text i) <-> Forall (fun c => c < 256) text).
Proof.
  intros Htext. revert i.
  induction Htext as [|c rest Hc Hrest IH]; intros i; cbn [xorLoop]; [tauto|].
  rewrite !List.Forall_cons_iff, IH.
  now rewrite (xor_byte_iff c _ Hc (key_char_bound i)).
Qed.

Lemma xorLoop_length text i : List.length (xorLoop text i) = List.length text.
Proof.
  revert i. induction text as [|c rest IH]; intros i; cbn [xorLoop List.length];
    [reflexivity|now rewrite IH].
Qed.

Lemma forallb_lt_iff (n : N) (l : list N) :
  forallb (fun c => c <? n) l = true <-> Forall (fun c => c < n) l.
Proof.
  rewrite forallb_forall, List.Forall_forall. split; intros H c Hc.
  - now apply N.ltb_lt, H.
  - now apply N.ltb_lt, H.
Qed.

Lemma encode_bytes_length_formula bs :
  List.length (encode_bytes bs) = (4 * ((List.length bs + 2) / 3))%nat.
Proof.
  induction bs as [|a|a b|a b c l IH] using list_ind3; try reflexivity.
  cbn [encode_bytes List.length]. rewrite IH.
  replace (S (S (S (List.length l))) + 2)%nat with (List.length l + 2 + 1 * 3)%nat by lia.
  rewrite Nat.div_add by discriminate. lia.
Qed.

Lemma alphabet_char_ascii i : i < 64 -> alphabet_char i < 128.
Proof.
  intros Hi. apply N.ltb_lt. revert i Hi.
  apply (range_forallb (fun i => alphabet_char i <? 128) 64).
  vm_compute. reflexivity.
Qed.

Lemma encode_bytes_ascii bs :
  Forall (fun c => c < 256) bs -> Forall (fun c => c < 128) (encode_bytes bs).
Proof.
  intros Hbs. rewrite encode_bytes_split. apply Forall_app. split.
  - apply sextets_bound in Hbs. apply List.Forall_forall. intros c Hc.
    apply in_map_iff in Hc as (s & <- & Hs).
    rewrite List.Forall_forall in Hbs. apply alphabet_char_ascii. now apply Hbs.
  - destruct (padding_cases bs) as [-> | [-> | ->]]; repeat constructor.
Qed.

Lemma bytes_or_wide (l : list N) :
  ~ Forall (fun c => c < 256) l -> Exists (fun c => 256 <= c) l.
Proof.
  induction l as [|c l IH]; intros H; [exfalso; apply H; constructor|].
  destruct (N.lt_ge_cases c 256) as [Hc | Hc].
  - apply List.Exists_cons_tl, IH. intros Hl. apply H. now constructor.
  - now apply List.Exists_cons_hd.
Qed.

Lemma wide_not_bytes (l : list N) :
  Exists (fun c => 256 <= c) l -> ~ Forall (fun c => c < 256) l.
Proof.
  intros Hex Hall. apply List.Exists_exists in Hex as (c & Hc & Hge).
  rewrite List.Forall_forall in Hall. specialize (Hall c Hc). lia.
Qed.

Lemma encrypt_cases token :
  is_jsstring token ->
  (Forall (fun c => c < 256) token
   /\ encrypt token
      = Ret (match token with [] => [] | _ => encode_bytes (xorLoop token 0) end))
  \/ (Exists (fun c => 256 <= c) token
      /\ encrypt token = Throw "InvalidCharacterError").
Proof.
  intros Hwf. destruct token as [|c rest]; [left; split; [constructor|reflexivity]|].
  unfold encrypt, btoa.
  destruct (forallb (fun c0 => c0 <? 256) (xorLoop (c :: rest) 0)) eqn:E.
  - left. split; [|reflexivity].
    apply forallb_lt_iff in E. now apply (xorLoop_bytes_iff _ 0 Hwf).
  - right. split; [|reflexivity].
    apply bytes_or_wide. intros Hall.
    apply (xorLoop_bytes_iff _ 0 Hwf), forallb_lt_iff in Hall. congruence.
Qed.
End TokenManagerMore.

(** X17. [encrypt] throws, by way of the unguarded [btoa], exactly when the
    token has a character above 255; otherwise it returns a string. *)
Theorem encrypt_throws_iff (token : JS.jsstring) :
  JS.is_jsstring token ->
  (TokenManager.encrypt token = Throw "InvalidCharacterError"
   <-> Exists (fun c => (256 <= c)%N) token)
  /\ ((exists e, TokenManager.encrypt token = Ret e)
      <-> Forall (fun c => (c < 256)%N) token).
Proof.
  intros Hwf. destruct (encrypt_cases token Hwf) as [[Hall E] | [Hex E]]; rewrite E.
  - split; split; try discriminate; eauto.
    intros Hex. now apply wide_not_bytes in Hex.
  - split; split; try tauto.
    + now intros [e He].
    + intros Hall. now apply wide_not_bytes in Hex.
Qed.

Lemma encrypt_throws_iff_witness :
  TokenManager.encrypt [102; 233; 8364]%N = Throw "InvalidCharacterError".
Proof.
  refine (proj2 (proj1 (encrypt_throws_iff [102; 233; 8364]%N _)) _).
  - apply Forall_ltb. vm_compute. reflexivity.
  - apply List.Exists_cons_tl, List.Exists_cons_tl, List.Exists_cons_hd.
    vm_compute. discriminate.
Defined.

(** X18. What [encrypt] returns is padded base64: four characters for every
    three of the token, the last group padded, and all of them ASCII. *)
Theorem encrypt_output_shape (token e : JS.jsstring) :
  JS.is_jsstring token ->
  TokenManager.encrypt token = Ret e ->
  List.length e = (4 * ((List.length token + 2) / 3))%nat
  /\ Forall (fun c => (c < 128)%N) e.
Proof.
  intros Hwf He. destruct (encrypt_cases token Hwf) as [[Hall E] | [_ E]];
    rewrite E in He; [|discriminate].
  injection He as <-. destruct token as [|c rest]; [split; [reflexivity|constructor]|].
  split.
  - now rewrite encode_bytes_length_formula, xorLoop_length.
  - apply encode_bytes_ascii. now apply xorLoop_bytes_iff.
Qed.

Lemma encrypt_output_shape_witness :
  exists e, TokenManager.encrypt (JS.of_string "figd_Abc-123") = Ret e
            /\ List.length e = 16%nat.
Proof.
  eexists. split; [reflexivity|].
  refine (proj1 (encrypt_output_shape (JS.of_string "figd_Abc-123") _ _ eq_refl)).
  apply Forall_ltb. vm_compute. reflexivity.
Defined.

Section DecryptMalformed.
Import JS TokenManager.
#[local] Open Scope N_scope.

Lemma strip_padding_keeps (d : jsstring) (c : N) :
  In c d -> c <> pad_char -> In c (strip_padding d).
Proof.
  intros Hin Hne. unfold strip_padding.
  destruct (List.length d mod 4 =? 0)%nat; [|assumption].
  assert (Hrev : In c (rev d)) by now apply in_rev in Hin.
  destruct (rev d) as [|p1 [|p2 r]]; [assumption| |].
  - destruct (N.eqb_spec p1 pad_char) as [-> | _]; [|assumption].
    destruct Hrev as [E | []]. congruence.
  - destruct (N.eqb_spec p1 pad_char) as [-> | _]; [|assumption].
    destruct Hrev as [E | Hrev]; [congruence|].
    destruct (N.eqb_spec p2 pad_char) as [-> | _].
    + destruct Hrev as [E | Hrev]; [congruence|]. now apply in_rev in Hrev.
    + now apply in_rev in Hrev.
Qed.

Lemma sextets_of_outside (d : jsstring) (c : N) :
  In c d -> alphabet_index c = None -> sextets_of d = None.
Proof.
  intros Hin Hc. induction d as [|a d IH]; [destruct Hin|].
  cbn [sextets_of]. destruct Hin as [-> | Hin].
  - now rewrite Hc.
  - rewrite (IH Hin). now destruct (alphabet_index a).
Qed.
End DecryptMalformed.

(** X19. [decrypt] answers a string that is not base64 with the empty
    string: when [encrypted] holds a character that is neither of the
    alphabet, nor [=], nor white space, [atob] throws and the [catch]
    returns [""]. *)
Theorem decrypt_malformed (encrypted : JS.jsstring) (c : N) :
  In c encrypted ->
  JS.alphabet_index c = None -> c <> JS.pad_char -> JS.is_ascii_whitespace c = false ->
  (exists err, JS.atob encrypted = Throw err) /\ TokenManager.decrypt encrypted = [].
Proof.
  intros Hin Halpha Hpad Hws.
  assert (Hthrow : exists err, JS.atob encrypted = Throw err).
  { unfold JS.atob.
    set (d := JS.strip_padding
                (List.filter (fun c0 => negb (JS.is_ascii_whitespace c0)) encrypted)).
    assert (Hd : In c d).
    { apply strip_padding_keeps; [|assumption]. apply filter_In. now rewrite Hws. }
    destruct (List.length d mod 4 =? 1)%nat; [now eexists|].
    rewrite (sextets_of_outside d c Hd Halpha). now eexists. }
  split; [exact Hthrow|]. destruct Hthrow as [err Herr].
  unfold TokenManager.decrypt. rewrite Herr. now destruct encrypted.
Qed.

Lemma decrypt_malformed_witness :
  TokenManager.decrypt (JS.of_string "AAAA*AAA") = [].
Proof.
  refine (proj2 (decrypt_malformed (JS.of_string "AAAA*AAA") 42%N _ _ _ _)).
  - vm_compute. tauto.
  - reflexivity.
  - discriminate.
  - reflexivity.
Defined.


(** ** Loading and saving the settings *)

Section SettingsFacts.
Import JS TokenManager Settings.

Lemma encrypt_latin1_nonempty token :
  token <> [] -> is_jsstring token -> Forall (fun c => (c < 256)%N) token ->
  exists c e, encrypt token = Ret (c :: e) /\ decrypt (c :: e) = token.
Proof.
  intros Hne Hwf Hbytes.
  destruct (decrypt_encrypt_latin1 token Hwf) as (e & He & Hd).
  { now apply xorLoop_bytes_iff. }
  destruct e as [|c e]; [|now exists c, e].
  exfalso. destruct (encrypt_cases token Hwf) as [[_ E] | [_ E]];
    rewrite E in He; [|discriminate].
  destruct token as [|d rest]; [congruence|].
  injection He as He.
  destruct (xorLoop rest 1) as [|? [|? ?]]; discriminate He.
Qed.

End SettingsFacts.

(** X20.  Saving settings whose token is a non-empty string of code units
    below 256 and loading the saved object again gives the same settings,
    with the token restored by decryption and the encrypted token filled in.
    The saved object has the encrypted token in place of the token and
    neither of the two runtime keys, and the runtime data after the load are
    the defaults. *)
Theorem settings_round_trip (s : Settings.FigmaObsidianSyncSettings) :
  Settings.figmaToken s <> [] ->
  JS.is_jsstring (Settings.figmaToken s) ->
  Forall (fun c => (c < 256)%N) (Settings.figmaToken s) ->
  exists blob e,
    Settings.settingsToSave s = Ret blob
    /\ TokenManager.encrypt (Settings.figmaToken s) = Ret e
    /\ Settings.saved_figmaToken blob = None
    /\ Settings.saved_encryptedToken blob = Some e
    /\ Settings.saved_lastSync blob = None
    /\ Settings.saved_frameInfoCache blob = None
    /\ Settings.loadSettings (Some blob)
       = (Settings.mkSettings (Settings.figmaToken s) (Settings.syncFolder s)
            (Settings.syncInterval s) (Settings.figmaFiles s) (Some e)
            (Settings.tokenVisible s) (Settings.fetchFrameInfo s)
            (Settings.deleteToTrash s),
          Settings.DEFAULT_RUNTIME_DATA).
Proof.
  intros Hne Hwf Hbytes.
  destruct (encrypt_latin1_nonempty _ Hne Hwf Hbytes) as (c & e & He & Hd).
  destruct s as [token folder interval files enc visible frames trash].
  cbn [Settings.figmaToken] in *.
  destruct token as [|t ts]; [congruence|].
  eexists _, (c :: e). unfold Settings.settingsToSave.
  cbn [Settings.nonEmpty Settings.figmaToken]. rewrite He.
  split; [reflexivity|]. split; [reflexivity|].
  cbn [Settings.saved_figmaToken Settings.saved_encryptedToken
       Settings.saved_lastSync Settings.saved_frameInfoCache].
  repeat (split; [reflexivity|]).
  unfold Settings.loadSettings, Settings.assignSaved.
  cbn -[TokenManager.decrypt]. now rewrite Hd.
Qed.

Lemma settings_round_trip_witness :
  exists blob e,
    Settings.settingsToSave
      (Settings.setToken (JS.of_string "figd_Abc-123") Settings.DEFAULT_SETTINGS)
    = Ret blob
    /\ Settings.saved_encryptedToken blob = Some e
    /\ Settings.figmaToken (fst (Settings.loadSettings (Some blob)))
       = JS.of_string "figd_Abc-123".
Proof.
  destruct (settings_round_trip
              (Settings.setToken (JS.of_string "figd_Abc-123") Settings.DEFAULT_SETTINGS))
    as (blob & e & Hs & _ & _ & He & _ & _ & Hl).
  - discriminate.
  - apply Forall_ltb. vm_compute. reflexivity.
  - apply Forall_ltb. vm_compute. reflexivity.
  - exists blob, e. split; [exact Hs|]. split; [exact He|]. now rewrite Hl.
Defined.

(** X21.  A token cannot be removed once it has been saved and loaded.  Take
    a non-empty token of code units below 256, save it and load the saved
    object; then empty the token field and save again.  The second saved
    object still carries the encrypted token of the first, and loading it
    brings the old token back.  Emptying the field of settings that hold no
    encrypted token does remove it. *)
Theorem cleared_token_returns (s : Settings.FigmaObsidianSyncSettings)
    (token : JS.jsstring) :
  token <> [] ->
  JS.is_jsstring token ->
  Forall (fun c => (c < 256)%N) token ->
  (exists blob1 e blob2,
      Settings.settingsToSave (Settings.setToken token s) = Ret blob1
      /\ TokenManager.encrypt token = Ret e
      /\ Settings.settingsToSave
           (Settings.setToken [] (fst (Settings.loadSettings (Some blob1))))
         = Ret blob2
      /\ Settings.saved_figmaToken blob2 = Some []
      /\ Settings.saved_encryptedToken blob2 = Some e
      /\ Settings.figmaToken (fst (Settings.loadSettings (Some blob2))) = token)
  /\ (Settings.encryptedToken s = None ->
      exists blob,
        Settings.settingsToSave (Settings.setToken [] (Settings.setToken token s))
        = Ret blob
        /\ Settings.saved_encryptedToken blob = None
        /\ Settings.figmaToken (fst (Settings.loadSettings (Some blob))) = []).
Proof.
  intros Hne Hwf Hbytes. split.
  - destruct (encrypt_latin1_nonempty _ Hne Hwf Hbytes) as (c & e & He & Hd).
    destruct s as [token0 folder interval files enc visible frames trash].
    destruct token as [|t ts]; [congruence|].
    eexists _, (c :: e), _. unfold Settings.settingsToSave at 1.
    cbn [Settings.setToken Settings.nonEmpty Settings.figmaToken]. rewrite He.
    split; [reflexivity|]. split; [reflexivity|].
    unfold Settings.loadSettings, Settings.assignSaved.
    cbn -[TokenManager.decrypt]. split; [reflexivity|].
    cbn -[TokenManager.decrypt]. repeat (split; [reflexivity|]). exact Hd.
  - intros Henc. destruct s as [token0 folder interval files enc visible frames trash].
    cbn [Settings.encryptedToken] in Henc. subst enc.
    eexists. split; [reflexivity|]. split; reflexivity.
Qed.

Lemma cleared_token_returns_witness :
  exists blob1 blob2,
    Settings.settingsToSave
      (Settings.setToken (JS.of_string "figd_Abc-123") Settings.DEFAULT_SETTINGS)
    = Ret blob1
    /\ Settings.settingsToSave
         (Settings.setToken [] (fst (Settings.loadSettings (Some blob1))))
       = Ret blob2
    /\ Settings.figmaToken (fst (Settings.loadSettings (Some blob2)))
       = JS.of_string "figd_Abc-123".
Proof.
  destruct (cleared_token_returns Settings.DEFAULT_SETTINGS (JS.of_string "figd_Abc-123"))
    as [(blob1 & e & blob2 & H1 & _ & H2 & _ & _ & H3) _].
  - discriminate.
  - apply Forall_ltb. vm_compute. reflexivity.
  - apply Forall_ltb. vm_compute. reflexivity.
  - exists blob1, blob2. split; [exact H1|]. split; [exact H2|exact H3].
Defined.

(** ** Rendering: continuation lines and requests *)

Section RenderingMore.
Import FrameInfoFetcher CacheSpec Plugin SyncSpec.

Lemma append_empty_l (s : string) : ("" ++ s)%string = s.
Proof. reflexivity. Qed.

Lemma append_String c (s t : string) : (String c s ++ t)%string = String c (s ++ t).
Proof. reflexivity. Qed.

Lemma indentContinuation_after_newline message :
  forall pre post,
    indentContinuation message = (pre ++ nl ++ post)%string ->
    exists post', post = ("    " ++ post')%string.
Proof.
  induction message as [|c rest IH]; intros pre post H; cbn [indentContinuation] in H.
  - destruct pre; discriminate H.
  - destruct (Ascii.eqb c (ascii_of_nat 10)) eqn:Ec.
    + unfold nl in H at 1.
      destruct pre as [|p0 pre].
      { unfold nl in H. repeat rewrite ?append_empty_l, ?append_String in H.
        injection H as H. exists (indentContinuation rest). now rewrite <- H. }
      rewrite !append_String, append_empty_l in H. injection H as _ H.
      do 4 (destruct pre as [|? pre];
            [unfold nl in H; rewrite append_empty_l, append_String in H; discriminate H
            |rewrite !append_String in H; injection H as _ H]).
      rewrite ?append_empty_l in H. now apply (IH pre).
    + destruct pre as [|p0 pre].
      { unfold nl in H. rewrite append_empty_l, append_String in H.
        injection H as Hc _. rewrite Hc in Ec. discriminate Ec. }
      rewrite append_String in H. injection H as _ H. now apply (IH pre).
Qed.

Lemma indentContinuation_length message :
  String.length (indentContinuation message)
  = (String.length message + 4 * occurrences (ascii_of_nat 10) message)%nat.
Proof.
  induction message as [|c rest IH]; [reflexivity|].
  cbn [indentContinuation occurrences].
  destruct (Ascii.eqb c (ascii_of_nat 10)).
  - unfold nl. rewrite !append_String, !append_empty_l.
    cbn [String.length]. rewrite IH. lia.
  - cbn [String.length]. rewrite IH. lia.
Qed.

Lemma indentContinuation_single_line message :
  lacks (ascii_of_nat 10) message -> indentContinuation message = message.
Proof.
  induction message as [|c rest IH]; [reflexivity|]. intros [Hc Hrest].
  cbn [indentContinuation]. destruct (Ascii.eqb_spec c (ascii_of_nat 10)); [contradiction|].
  now rewrite IH.
Qed.

Lemma getFrameInfo_requests_le P now fk nodeId coordinates st :
  exists extra,
    requests (snd (getFrameInfo P now fk nodeId coordinates st)) = requests st ++ extra
    /\ (List.length extra <= 1)%nat
    /\ Forall (eq fk) extra.
Proof.
  destruct (getFrameInfo_route P fk nodeId coordinates) as [[find H] | H]; rewrite H.
  - destruct (fst (getCachedFrameInfo now fk (resolutionKey P nodeId coordinates) st))
      as [info|] eqn:Hc.
    + rewrite (resolveBy_hit _ _ _ _ _ _ _ Hc). exists []. cbn [snd].
      rewrite app_nil_r. repeat split; [cbn; lia|constructor].
    + exists [fk]. rewrite (resolveBy_miss _ _ _ _ _ _ Hc).
      repeat split; [cbn; lia|]. now constructor.
  - exists []. cbn [snd]. rewrite app_nil_r. repeat split; [cbn; lia|constructor].
Qed.

Lemma lookupFrame_requests P now flag file comment st :
  exists st' extra,
    snd (lookupFrame P now flag file comment (Some st)) = Some st'
    /\ requests st' = requests st ++ extra
    /\ (List.length extra <= if flag && anchored comment then 1 else 0)%nat
    /\ Forall (eq (file_key file)) extra.
Proof.
  assert (Hsame : exists st' extra,
             Some st = Some st' /\ requests st' = requests st ++ extra
             /\ (List.length extra <= 0)%nat /\ Forall (eq (file_key file)) extra).
  { exists st, []. rewrite app_nil_r. repeat split; [cbn; lia|constructor]. }
  unfold lookupFrame, anchored. destruct flag; cbn [andb snd]; [|exact Hsame].
  destruct (client_meta comment) as [meta|]; cbn [snd]; [|exact Hsame].
  destruct (truthy (node_id meta)); cbn [snd]; [|exact Hsame].
  destruct (getFrameInfo_requests_le P now (file_key file) (default "" (node_id meta))
              (node_offset meta) st) as (extra & Hreq & Hlen & Hall).
  destruct (getFrameInfo P now (file_key file) (default "" (node_id meta))
              (node_offset meta) st) as [r st'].
  exists st', extra. cbn [snd] in *. now repeat split.
Qed.

Lemma renderEntries_requests P now flag file sorted :
  forall content st,
  exists st' extra,
    snd (renderEntries P now flag file sorted content (Some st)) = Some st'
    /\ requests st' = requests st ++ extra
    /\ (List.length extra
        <= if flag then List.length (List.filter anchored sorted) else 0)%nat
    /\ Forall (eq (file_key file)) extra.
Proof.
  induction sorted as [|c rest IH]; intros content st; cbn [renderEntries].
  - exists st, []. rewrite app_nil_r. cbn [snd].
    repeat split; [destruct flag; cbn; lia|constructor].
  - destruct (lookupFrame_requests P now flag file c st)
      as (st1 & extra1 & Hst & Hreq1 & Hlen1 & Hall1).
    destruct (lookupFrame P now flag file c (Some st)) as [r fetcher1].
    cbn [snd] in Hst. subst fetcher1.
    assert (Hstep : (List.length extra1
                     <= if flag then List.length (List.filter anchored (c :: rest))
                        else 0)%nat).
    { destruct flag; cbn [andb List.filter] in *; [|exact Hlen1].
      destruct (anchored c); cbn [List.length]; lia. }
    destruct r as [frameInfo|e].
    + destruct (IH ((content ++ entryHead P c)
                    ++ frameLines frameInfo ++ entryTail P c)%string
                  st1) as (st2 & extra2 & Hst2 & Hreq2 & Hlen2 & Hall2).
      exists st2, (extra1 ++ extra2).
      split; [exact Hst2|].
      split; [rewrite Hreq2, Hreq1; now rewrite app_assoc|].
      split; [|now apply Forall_app].
      rewrite length_app.
      destruct flag; cbn [andb List.filter] in *; [|lia].
      destruct (anchored c); cbn [List.length]; lia.
    + exists st1, extra1. cbn [snd]. now repeat split.
Qed.

Lemma filter_length_perm {A} (f : A -> bool) l l' :
  Permutation l l' ->
  List.length (List.filter f l) = List.length (List.filter f l').
Proof.
  induction 1 as [|a l l' _ IH|a b l|l l' l'' _ IH1 _ IH2]; cbn [List.filter].
  - reflexivity.
  - destruct (f a); cbn [List.length]; now rewrite IH.
  - destruct (f a), (f b); reflexivity.
  - now rewrite IH1.
Qed.

End RenderingMore.

(** X22.  [indentContinuation], applied to the message of a comment, puts
    four spaces after every line break: in its result every line break is
    followed by four spaces, the result is longer than the message by four
    characters for each line break of the message, and a message without a
    line break is returned as it is. *)
Theorem indentContinuation_lines (message : string) :
  (forall pre post,
      Plugin.indentContinuation message = (pre ++ Plugin.nl ++ post)%string ->
      exists post', post = ("    " ++ post')%string)
  /\ String.length (Plugin.indentContinuation message)
     = (String.length message
        + 4 * SyncSpec.occurrences (ascii_of_nat 10) message)%nat
  /\ (SyncSpec.lacks (ascii_of_nat 10) message ->
      Plugin.indentContinuation message = message).
Proof.
  split; [apply indentContinuation_after_newline|].
  split; [apply indentContinuation_length|apply indentContinuation_single_line].
Qed.

(** X23.  Rendering the comments of a file with a frame information fetcher
    keeps the fetcher and sends, in all, at most one structure request for
    each comment attached to a node, every one of them for the key of the
    file being rendered; with the frame information switched off it sends
    none.  This holds as well when the rendering stops with an exception. *)
Theorem saveCommentsToSingleFile_requests (P : Platform) (now : Z)
    (fetchFrameInfo : bool) (st : FrameInfoFetcher.Fetcher) (file : FigmaFile)
    (comments : list FigmaComment) :
  exists st' extra,
    snd (Plugin.saveCommentsToSingleFile P now fetchFrameInfo (Some st) file comments)
    = Some st'
    /\ FrameInfoFetcher.requests st' = FrameInfoFetcher.requests st ++ extra
    /\ (List.length extra
        <= if fetchFrameInfo
           then List.length (List.filter SyncSpec.anchored comments)
           else 0)%nat
    /\ Forall (eq (file_key file)) extra.
Proof.
  unfold Plugin.saveCommentsToSingleFile.
  destruct (renderEntries_requests P now fetchFrameInfo file
              (Plugin.Array_sort (Plugin.newestFirst P) comments)
              (Plugin.initialContent P file comments) st)
    as (st' & extra & Hst & Hreq & Hlen & Hall).
  exists st', extra. repeat split; try assumption.
  now rewrite (filter_length_perm SyncSpec.anchored _ _ (Array_sort_perm P comments)).
Qed.
